(** * AminoLightBots: handler backends, states and middleware signals

    A shallow embedding of [AminoLightBots/handler_backends.py] and proofs
    about it.

    Python objects that are mutated in place ([dict], [list], [State]
    instances) live in a heap and are handled through references, so that
    two names for one object see each other's writes.  Code that can raise
    returns a [result]; code that reads or writes the heap, or talks to the
    Redis server, threads a world through the monad [M].

    Each Python class is a module with the methods under their own names.
    The definitions come first, the properties after them. *)

From Stdlib Require Import ZArith Ascii String DecimalString DecimalZ.
From stdpp Require Import gmap strings list fin_maps.

Local Open Scope string_scope.

(** ** Python preliminaries *)

(** Object references.  Two references are the same object iff they are
    equal ([is] in Python). *)
Abbreviation loc := positive.

(** The exceptions that the modelled code raises, or that the primitives it
    calls raise. *)
Inductive exn :=
| NotImplementedError
| Exception (msg : string)
| TypeError
| KeyError
| PickleError.

Inductive result (A : Type) :=
| Ok (a : A)
| Raise (e : exn).
Arguments Ok {A} a.
Arguments Raise {A} e.

(** State and exceptions: a raised exception keeps the writes made before
    it, as in Python. *)
Definition M (W A : Type) : Type := W → result A * W.

Definition ret {W A} (a : A) : M W A := λ w, (Ok a, w).

Definition raise {W A} (e : exn) : M W A := λ w, (Raise e, w).

Definition bind {W A B} (c : M W A) (k : A → M W B) : M W B :=
  λ w, match c w with
       | (Ok a, w') => k a w'
       | (Raise e, w') => (Raise e, w')
       end.

Notation "'let*' x ':=' c 'in' k" := (bind c (λ x, k))
  (at level 10, x pattern, c at level 100, k at level 200).
Notation "c ';;' k" := (bind c (λ _, k))
  (at level 100, k at level 200, right associativity).

(** Conversation keys ([handler_group_id]): an [int] or a [str]. *)
Inductive key :=
| KInt (z : Z)
| KStr (s : string).

#[global] Instance key_eq_dec : EqDecision key.
Proof. solve_decision. Defined.

#[global] Instance key_countable : Countable key.
Proof.
  apply (inj_countable'
           (λ k, match k with KInt z => inl z | KStr s => inr s end)
           (λ x, match x with inl z => KInt z | inr s => KStr s end)).
  by intros [].
Defined.

(** [str(k)]: the decimal numeral of an [int], a [str] itself. *)
Definition str (k : key) : string :=
  match k with
  | KInt z => NilZero.string_of_int (Z.to_int z)
  | KStr s => s
  end.

(** [sep.join((a, b))] *)
Definition join (sep a b : string) : string := a ++ sep ++ b.

Abbreviation bytes := (list Byte.byte).

(** Truth value of [value] in [if value:] where [value] is [None] or a
    [bytes] object: only a non-empty [bytes] is true. *)
Definition truthy (value : option bytes) : bool :=
  match value with
  | Some (_ :: _) => true
  | _ => false
  end.

(** ** The world the backends run in *)

(** The commands a Redis client sends. *)
Inductive redis_cmd :=
| GET (name : string)
| SET (name : string) (value : bytes)
| DEL (name : string).

(** [dicts] and [lists] are the heap: the [dict] objects that map a key to a
    reference to a [list] object, and the [list] objects themselves.
    [redis_db] is the string table of the Redis server and [redis_log] the
    commands it has received, oldest first. *)
Record world (handler : Type) := World {
  dicts : gmap loc (gmap key loc);
  lists : gmap loc (list handler);
  redis_db : gmap string bytes;
  redis_log : list redis_cmd;
}.
Arguments World {handler}.
Arguments dicts {handler}.
Arguments lists {handler}.
Arguments redis_db {handler}.
Arguments redis_log {handler}.

(** [pickle], for the handler lists it is used on.  Either direction may
    raise. *)
Class Pickle (handler : Type) := {
  pickle_dumps : list handler → result bytes;
  pickle_loads : bytes → result (list handler);
}.

(** The primitives on [dict] and [list] objects that the backends use.  A
    reference that does not denote an object of the expected type raises
    [TypeError]; a new object gets a reference that is not in use. *)
Section heap.
Context {handler : Type}.
Implicit Types (w : world handler) (d l : loc) (k : key) (h : handler).

Definition set_dicts (f : gmap loc (gmap key loc) → gmap loc (gmap key loc)) w :=
  World (f (dicts w)) (lists w) (redis_db w) (redis_log w).

Definition set_lists (f : gmap loc (list handler) → gmap loc (list handler)) w :=
  World (dicts w) (f (lists w)) (redis_db w) (redis_log w).

(** [{}] *)
Definition new_dict : M (world handler) loc :=
  λ w, let d := fresh (dom (dicts w)) in (Ok d, set_dicts <[d := ∅]> w).

(** [[x1, ..., xn]] *)
Definition new_list (xs : list handler) : M (world handler) loc :=
  λ w, let l := fresh (dom (lists w)) in (Ok l, set_lists <[l := xs]> w).

(** [k in d] *)
Definition dict_contains d k : M (world handler) bool :=
  λ w, match dicts w !! d with
       | Some m => (Ok (bool_decide (is_Some (m !! k))), w)
       | None => (Raise TypeError, w)
       end.

(** [d[k]] *)
Definition dict_getitem d k : M (world handler) loc :=
  λ w, match dicts w !! d with
       | Some m => match m !! k with
                   | Some l => (Ok l, w)
                   | None => (Raise KeyError, w)
                   end
       | None => (Raise TypeError, w)
       end.

(** [d[k] = l] *)
Definition dict_setitem d k l : M (world handler) unit :=
  λ w, match dicts w !! d with
       | Some m => (Ok (), set_dicts <[d := <[k := l]> m]> w)
       | None => (Raise TypeError, w)
       end.

(** [d.pop(k, None)] *)
Definition dict_pop d k : M (world handler) (option loc) :=
  λ w, match dicts w !! d with
       | Some m => (Ok (m !! k), set_dicts <[d := delete k m]> w)
       | None => (Raise TypeError, w)
       end.

(** [l.append(h)] *)
Definition list_append l h : M (world handler) unit :=
  λ w, match lists w !! l with
       | Some xs => (Ok (), set_lists <[l := (xs ++ [h])%list]> w)
       | None => (Raise TypeError, w)
       end.
End heap.

(** The module's start: [try: from redis import Redis; redis_installed =
    True] and [except: redis_installed = False].  [importable] says whether
    the import of the client library succeeds. *)
Definition redis_installed (importable : bool) : bool :=
  if importable then true else false.

(** ** [class HandlerBackend] *)
Module HandlerBackend.

(** An instance: [self.handlers] is a reference to a [dict]. *)
Record t := Build { handlers : loc }.

Section methods.
Context {handler : Type}.

(** [handlers=None] is replaced by a new [{}] in the body of the
    constructor, once per call. *)
Definition __init__ (handlers : option loc) : M (world handler) t :=
  match handlers with
  | None => let* d := new_dict in ret (Build d)
  | Some d => ret (Build d)
  end.

Definition register_handler (self : t) (handler_group_id : key)
    (h : handler) : M (world handler) unit :=
  raise NotImplementedError.

Definition clear_handlers (self : t) (handler_group_id : key)
    : M (world handler) unit :=
  raise NotImplementedError.

Definition get_handlers (self : t) (handler_group_id : key)
    : M (world handler) (option loc) :=
  raise NotImplementedError.

End methods.
End HandlerBackend.

(** ** [class MemoryHandlerBackend(HandlerBackend)] *)
Module MemoryHandlerBackend.
Import HandlerBackend.

Section methods.
Context {handler : Type}.

(** Inherited from [HandlerBackend]. *)
Definition __init__ (handlers : option loc) : M (world handler) t :=
  HandlerBackend.__init__ handlers.

Definition register_handler (self : t) (handler_group_id : key)
    (h : handler) : M (world handler) unit :=
  let* present := dict_contains (handlers self) handler_group_id in
  if present : bool then
    let* l := dict_getitem (handlers self) handler_group_id in
    list_append l h
  else
    let* l := new_list [h] in
    dict_setitem (handlers self) handler_group_id l.

Definition clear_handlers (self : t) (handler_group_id : key)
    : M (world handler) unit :=
  dict_pop (handlers self) handler_group_id;; ret ().

(** Returns the [list] object that was stored, or [None]. *)
Definition get_handlers (self : t) (handler_group_id : key)
    : M (world handler) (option loc) :=
  dict_pop (handlers self) handler_group_id.

Definition load_handlers (self : t) (filename : string)
    (del_file_after_loading : bool) : M (world handler) unit :=
  raise NotImplementedError.

End methods.
End MemoryHandlerBackend.

(** ** The Redis client ([redis.Redis])

    The three commands the backend uses, on the server's string table.
    Each one is recorded in [redis_log].  The commands reach the server: a
    client that fails on the network raises from the command and is not
    part of this model. *)
Module Redis.

Record t := Build {
  host : string;
  port : Z;
  db : Z;
  password : option string;
}.

Section commands.
Context {handler : Type}.

Definition log (c : redis_cmd) (w : world handler) : world handler :=
  World (dicts w) (lists w) (redis_db w) (redis_log w ++ [c])%list.

Definition set_db (f : gmap string bytes → gmap string bytes)
    (w : world handler) : world handler :=
  World (dicts w) (lists w) (f (redis_db w)) (redis_log w).

(** [None] when the name is not set. *)
Definition get (self : t) (name : string) : M (world handler) (option bytes) :=
  λ w, (Ok (redis_db w !! name), log (GET name) w).

Definition set (self : t) (name : string) (value : bytes)
    : M (world handler) unit :=
  λ w, (Ok (), log (SET name value) (set_db <[name := value]> w)).

Definition delete (self : t) (name : string) : M (world handler) unit :=
  λ w, (Ok (), log (DEL name) (set_db (base.delete name) w)).

End commands.
End Redis.

(** ** [class RedisHandlerBackend(HandlerBackend)] *)
Module RedisHandlerBackend.

Record t := Build {
  handlers : loc;
  prefix : string;
  redis : Redis.t;
}.

(** The defaults of the constructor's keyword arguments. *)
Definition default_host : string := "localhost".
Definition default_port : Z := 6379.
Definition default_db : Z := 0.
Definition default_prefix : string := "aminobot".

Definition not_installed : string :=
  "Redis is not installed. Install it via 'pip install redis'".

Definition _key (self : t) (handle_group_id : key) : string :=
  join ":" (prefix self) (str handle_group_id).

Section methods.
Context {handler : Type} `{!Pickle handler}.

(** A [pickle] call inside a method: its exception leaves the world as it
    is. *)
Definition pickled {A} (r : result A) : M (world handler) A :=
  λ w, (r, w).

(** [redis_installed] is the module's flag, read when the constructor
    runs. *)
Definition __init__ (redis_installed : bool) (handlers : option loc)
    (host : string) (port db : Z) (prefix : string)
    (password : option string) : M (world handler) t :=
  let* base := HandlerBackend.__init__ handlers in
  if negb redis_installed then
    raise (Exception not_installed)
  else
    ret (Build (HandlerBackend.handlers base) prefix
               (Redis.Build host port db password)).

Definition clear_handlers (self : t) (handler_group_id : key)
    : M (world handler) unit :=
  Redis.delete (redis self) (_key self handler_group_id).

(** [if value:] holds of a payload that is there and not empty, which is
    the first branch of the [match]. *)
Definition register_handler (self : t) (handler_group_id : key)
    (h : handler) : M (world handler) unit :=
  let* value := Redis.get (redis self) (_key self handler_group_id) in
  let* handlers :=
    match value with
    | Some ((_ :: _) as v) => pickled (pickle_loads v)
    | _ => ret []
    end in
  let handlers := (handlers ++ [h])%list in
  let* payload := pickled (pickle_dumps handlers) in
  Redis.set (redis self) (_key self handler_group_id) payload.

(** Returns the deserialized list, a new object, or [None]. *)
Definition get_handlers (self : t) (handler_group_id : key)
    : M (world handler) (option (list handler)) :=
  let* value := Redis.get (redis self) (_key self handler_group_id) in
  match value with
  | Some ((_ :: _) as v) =>
      let* handlers := pickled (pickle_loads v) in
      clear_handlers self handler_group_id;;
      ret (Some handlers)
  | _ => ret None
  end.

End methods.
End RedisHandlerBackend.

(** ** States

    The objects a class body can bind to a name.  A [State] instance (of
    [State] itself or of a subclass) carries its attributes [name] and
    [group]; [group] is unset until a group adopts the instance.  For every
    object the heap records whether [callable] holds of it, that is whether
    its class defines [__call__]: [State] itself does not, a subclass may. *)
Inductive pyobj :=
| StateObj (is_callable : bool) (name : string) (group : option loc)
| OtherObj (is_callable : bool).

Abbreviation objects := (gmap loc pyobj).

(** [callable(value)] *)
Definition callable (σ : objects) (value : loc) : bool :=
  match σ !! value with
  | Some (StateObj c _ _) => c
  | Some (OtherObj c) => c
  | None => false
  end.

(** [isinstance(value, State)] *)
Definition isinstance_State (σ : objects) (value : loc) : bool :=
  match σ !! value with
  | Some (StateObj _ _ _) => true
  | _ => false
  end.

(** [class State] *)
Module State.

(** [State()]: a new object whose [name] is the empty string. *)
Definition __init__ : M objects loc :=
  λ σ, let self := fresh (dom σ) in
       (Ok self, <[self := StateObj false EmptyString None]> σ).

Definition __str__ (self : loc) : M objects string :=
  λ σ, match σ !! self with
       | Some (StateObj _ name _) => (Ok name, σ)
       | _ => (Raise TypeError, σ)
       end.

(** [d1 == d2].  [State] defines no [__eq__], so the comparison is the one
    inherited from [object]: identity. *)
Definition __eq__ (d1 d2 : loc) : bool := bool_decide (d1 = d2).

End State.

(** [class StatesGroup] *)
Module StatesGroup.

(** A subclass under definition: the class object [cls] (its identity),
    [cls.__name__] and the items of [cls.__dict__] in the order of the class
    body. *)
Record class := Class {
  cls : loc;
  __name__ : string;
  __dict__ : list (string * loc);
}.

(** [value.name = ...; value.group = cls] *)
Definition set_name_group (value : loc) (name : string) (group : loc)
    (σ : objects) : objects :=
  match σ !! value with
  | Some (StateObj c _ _) => <[value := StateObj c name (Some group)]> σ
  | _ => σ
  end.

(** The body of the loop for one item. *)
Definition visit (c : class) (item : string * loc) (σ : objects) : objects :=
  let '(name, value) := item in
  if negb (String.prefix "__" name) && negb (callable σ value)
     && isinstance_State σ value
  then set_name_group value (join ":" (__name__ c) name) (cls c) σ
  else σ.

(** [for name, value in items: ...] *)
Fixpoint visit_all (c : class) (items : list (string * loc)) (σ : objects)
    : objects :=
  match items with
  | [] => σ
  | item :: items => visit_all c items (visit c item σ)
  end.

Definition __init_subclass__ (c : class) (σ : objects) : objects :=
  visit_all c (__dict__ c) σ.

End StatesGroup.

(** ** Middleware and control signals *)

(** [class EventsEnum] of [types.py]: the kinds of update. *)
Module EventsEnum.
Definition TEXT : string := "on_text_message".
Definition PHOTO : string := "on_image_message".
Definition AUDIO : string := "on_voice_message".
Definition STICKER : string := "on_sticker_message".
End EventsEnum.

(** What a middleware hook or a handler returns, as far as the dispatcher
    tells the values apart: [None], an instance of one of the three marker
    classes below, or anything else. *)
Inductive retval :=
| RNone
| SkipHandler
| CancelUpdate
| ContinueHandling
| ROther.

(** [class BaseMiddleware].  [pre_process] and [post_process] are the hooks
    a subclass overrides; [pre_process_for kind] and [post_process_for kind]
    are its methods [pre_process_<kind>] and [post_process_<kind>], where it
    defines them, and [update_types] the kinds it lists, as in the
    docstring.  [data] is the dictionary handed from hook to hook.  A hook
    that raises is a [Raise]. *)
Module BaseMiddleware.

Record t (update data : Type) := Build {
  update_sensitive : bool;
  update_types : list string;
  pre_process : update → data → result retval * data;
  post_process : update → data → option exn → result unit * data;
  pre_process_for : string → option (update → data → result retval * data);
  post_process_for :
    string → option (update → data → option exn → result unit * data);
}.
Arguments Build {update data}.
Arguments update_sensitive {update data}.
Arguments update_types {update data}.
Arguments pre_process {update data}.
Arguments post_process {update data}.
Arguments pre_process_for {update data}.
Arguments post_process_for {update data}.

(** An instance of the base class itself: [update_sensitive: bool = False],
    and both hooks raise [NotImplementedError]. *)
Definition base {update data : Type} : t update data :=
  Build false []
        (λ _ d, (Raise NotImplementedError, d))
        (λ _ d _, (Raise NotImplementedError, d))
        (λ _, None)
        (λ _, None).

End BaseMiddleware.

(** ** The dispatcher

    [handler_backends.py] declares the middleware base class and the three
    marker classes; the dispatcher that consumes them is described in
    section 4.3 of the specification. *)
Module Dispatcher.
Import BaseMiddleware.

(** Modelled from the spec: a handler record, "an opaque callable plus its
    matching predicate".  The callable may raise. *)
Record handler (update data : Type) := Handler {
  matches : update → bool;
  call : update → data → result retval * data;
}.
Arguments Handler {update data}.
Arguments matches {update data}.
Arguments call {update data}.

(** Modelled from the spec: what can be observed of one dispatch, oldest
    first.  The [i]-th middleware's pre hook returned [r] or raised, the
    [j]-th handler ran, the [i]-th middleware's post hook ran with the
    captured exception, the dispatcher reported an exception raised by that
    post hook. *)
Inductive event :=
| PreProcess (i : nat) (r : result retval)
| Execute (j : nat)
| PostProcess (i : nat) (exception : option exn)
| Reported (i : nat) (e : exn).

(** Modelled from the spec: the states that follow PRE in the state machine
    of section 4.3.  [FAILED] is the case the state machine leaves out, a
    pre hook that raises. *)
Inductive pre_outcome :=
| EXECUTING
| SKIPPED
| CANCELLED
| FAILED (e : exn).

Section dispatch.
Context {update data : Type}.
Variable kind : update → string.

(** Modelled from the spec: the hook that runs before the handlers.  A
    middleware that is not update-sensitive has the generic one for every
    kind of update; an update-sensitive middleware has the one named after
    the kind, and "a middleware lacking the specific hook for an update type
    is skipped for that update without error". *)
Definition pre_hook (m : t update data) (u : update)
    : option (update → data → result retval * data) :=
  if update_sensitive m then pre_process_for m (kind u)
  else Some (pre_process m).

(** Modelled from the spec: the hook that runs after the handlers, chosen
    as [pre_hook] is. *)
Definition post_hook (m : t update data) (u : update)
    : option (update → data → option exn → result unit * data) :=
  if update_sensitive m then post_process_for m (kind u)
  else Some (post_process m).

(** Modelled from the spec: the PRE state, "run each middleware.pre_process
    in order".  A [CancelUpdate] ends it at once; a [SkipHandler] is
    remembered while the remaining pre hooks run; any other value lets the
    dispatch go on.  The spec names nothing that catches an exception of a
    pre hook: it ends the dispatch. *)
Fixpoint run_pre (i : nat) (ms : list (t update data)) (u : update)
    (d : data) (skip : bool) : list event * pre_outcome * data :=
  match ms with
  | [] => ([], if skip then SKIPPED else EXECUTING, d)
  | m :: ms =>
      match pre_hook m u with
      | None => run_pre (S i) ms u d skip
      | Some hook =>
          match hook u d with
          | (Ok CancelUpdate, d') =>
              ([PreProcess i (Ok CancelUpdate)], CANCELLED, d')
          | (Ok r, d') =>
              let skip' := match r with SkipHandler => true | _ => skip end in
              let '(evs, out, d'') := run_pre (S i) ms u d' skip' in
              (PreProcess i (Ok r) :: evs, out, d'')
          | (Raise e, d') => ([PreProcess i (Raise e)], FAILED e, d')
          end
      end
  end.

(** Modelled from the spec: the EXECUTING state.  The first handler that
    matches runs and the matching stops there, unless the handler returns a
    [ContinueHandling], which passes the update on to the next handler that
    matches.  An exception of a handler is captured for the post hooks. *)
Fixpoint run_handlers (j : nat) (hs : list (handler update data))
    (u : update) (d : data) : list event * option exn * data :=
  match hs with
  | [] => ([], None, d)
  | h :: hs =>
      if matches h u then
        match call h u d with
        | (Ok ContinueHandling, d') =>
            let '(evs, exc, d'') := run_handlers (S j) hs u d' in
            (Execute j :: evs, exc, d'')
        | (Ok _, d') => ([Execute j], None, d')
        | (Raise e, d') => ([Execute j], Some e, d')
        end
      else run_handlers (S j) hs u d
  end.

(** Modelled from the spec: the POST state, the post hooks "in the same
    registration order, passing the captured exception (if any)".  An
    exception of a post hook is reported and the remaining middlewares still
    run. *)
Fixpoint run_post (i : nat) (ms : list (t update data)) (u : update)
    (d : data) (exception : option exn) : list event * data :=
  match ms with
  | [] => ([], d)
  | m :: ms =>
      match post_hook m u with
      | None => run_post (S i) ms u d exception
      | Some hook =>
          let '(r, d') := hook u d exception in
          let '(evs, d'') := run_post (S i) ms u d' exception in
          match r with
          | Ok _ => (PostProcess i exception :: evs, d'')
          | Raise e => (PostProcess i exception :: Reported i e :: evs, d'')
          end
      end
  end.

(** Modelled from the spec: one dispatch, PRE, then the handlers unless
    skipped, then POST; a cancelled dispatch is done after PRE, with "no
    POST, no handler". *)
Definition dispatch (ms : list (t update data))
    (hs : list (handler update data)) (u : update) (d : data)
    : list event * data :=
  match run_pre 0 ms u d false with
  | (pre, CANCELLED, d') => (pre, d')
  | (pre, FAILED _, d') => (pre, d')
  | (pre, SKIPPED, d') =>
      let '(post, d'') := run_post 0 ms u d' None in
      (pre ++ post, d'')%list
  | (pre, EXECUTING, d') =>
      let '(run, exc, d'') := run_handlers 0 hs u d' in
      let '(post, d''') := run_post 0 ms u d'' exc in
      (pre ++ run ++ post, d''')%list
  end.

(** The events of the PRE state. *)
Definition is_pre (e : event) : bool :=
  match e with
  | PreProcess _ _ => true
  | _ => false
  end.

End dispatch.
End Dispatcher.

(** ** What a memory store holds *)

Section observations.
Context {handler : Type}.
Implicit Types (w : world handler) (self : HandlerBackend.t) (k : key).

(** The handlers waiting under [k] in the store [self], if any: the content
    of the list that [get_handlers] would hand out. *)
Definition pending w self k : option (list handler) :=
  d ← dicts w !! HandlerBackend.handlers self;
  l ← d !! k;
  lists w !! l.

(** The store is a [dict] whose lists all exist. *)
Definition is_store w self : Prop :=
  ∃ d, dicts w !! HandlerBackend.handlers self = Some d
       ∧ ∀ k l, d !! k = Some l → is_Some (lists w !! l).

(** The store binds the list object [l] to some key. *)
Definition holds w self (l : loc) : Prop :=
  ∃ d k, dicts w !! HandlerBackend.handlers self = Some d ∧ d !! k = Some l.

(** No list object is bound to two keys of the store. *)
Definition unshared w self : Prop :=
  ∀ d k k' l, dicts w !! HandlerBackend.handlers self = Some d →
              d !! k = Some l → d !! k' = Some l → k = k'.

(** Two stores have nothing in common: neither the [dict] nor a list. *)
Definition apart w self other : Prop :=
  HandlerBackend.handlers self ≠ HandlerBackend.handlers other
  ∧ ∀ l, holds w self l → holds w other l → False.

(** A call of one of the three operations of a store. *)
Inductive request :=
| Register (k : key) (h : handler)
| Clear (k : key)
| Get (k : key).

Definition request_key (r : request) : key :=
  match r with
  | Register k _ => k
  | Clear k => k
  | Get k => k
  end.

Definition perform self (r : request) : M (world handler) unit :=
  match r with
  | Register k h => MemoryHandlerBackend.register_handler self k h
  | Clear k => MemoryHandlerBackend.clear_handlers self k
  | Get k => MemoryHandlerBackend.get_handlers self k;; ret ()
  end.

(** A sequence of calls on two stores; [true] addresses the first one. *)
Fixpoint script (first second : HandlerBackend.t)
    (rs : list (bool * request)) : M (world handler) unit :=
  match rs with
  | [] => ret ()
  | (to_first, r) :: rs =>
      perform (if to_first : bool then first else second) r;;
      script first second rs
  end.

(** [other] is the same store in [w'] as in [w]: the same [dict] and the
    same handlers waiting under every key. *)
Definition same_store w w' other : Prop :=
  dicts w' !! HandlerBackend.handlers other
  = dicts w !! HandlerBackend.handlers other
  ∧ ∀ k, pending w' other k = pending w other k.

(** [register_handler(k, h)] on [one] succeeds and [other] cannot tell: it
    is the same store, and [get_handlers(k')] and [clear_handlers(k')] on it
    return what they would have returned and leave it as they would have
    left it. *)
Definition undisturbed w one other k (h : handler) k' : Prop :=
  ∃ w', MemoryHandlerBackend.register_handler one k h w = (Ok (), w')
    ∧ same_store w w' other
    ∧ (MemoryHandlerBackend.get_handlers other k' w').1
      = (MemoryHandlerBackend.get_handlers other k' w).1
    ∧ same_store (MemoryHandlerBackend.get_handlers other k' w).2
                 (MemoryHandlerBackend.get_handlers other k' w').2 other
    ∧ (MemoryHandlerBackend.clear_handlers other k' w').1
      = (MemoryHandlerBackend.clear_handlers other k' w).1
    ∧ same_store (MemoryHandlerBackend.clear_handlers other k' w).2
                 (MemoryHandlerBackend.clear_handlers other k' w').2 other.

End observations.

(** ** Concrete stores

    Handlers are numbers here.  [example_pickle] stands in for [pickle]: it
    serializes a list of numbers below 256 as a marker byte and one byte for
    each, and raises on anything else. *)
Definition example_dumps (hs : list nat) : result bytes :=
  match mapM Byte.of_nat hs with
  | Some bs => Ok (Byte.x80 :: bs)
  | None => Raise PickleError
  end.

Definition example_loads (v : bytes) : result (list nat) :=
  match v with
  | Byte.x80 :: bs => Ok (Byte.to_nat <$> bs)
  | _ => Raise PickleError
  end.

#[global] Instance example_pickle : Pickle nat :=
  {| pickle_dumps := example_dumps; pickle_loads := example_loads |}.

(** A memory store with two handlers waiting under the key [5] and nothing
    under the key ["chat"]. *)
Definition example_store : HandlerBackend.t := HandlerBackend.Build 1.

Definition example_world : world nat :=
  World {[ 1%positive := {[ KInt 5 := 1%positive ]} ]}
        {[ 1%positive := [10; 11] ]} ∅ [].

(** A Redis store with the default arguments, and a server that holds the
    handlers [10] and [11] for the key [5]. *)
Definition example_redis : RedisHandlerBackend.t :=
  RedisHandlerBackend.Build 1 RedisHandlerBackend.default_prefix
    (Redis.Build RedisHandlerBackend.default_host
                 RedisHandlerBackend.default_port
                 RedisHandlerBackend.default_db None).

Definition example_server : world nat :=
  World {[ 1%positive := ∅ ]} ∅
        {[ "aminobot:5" := [Byte.x80; Byte.x0a; Byte.x0b] ]} [].

(** A group as in the docstring of [StatesGroup], with a second state and a
    method, and the objects of its class body before the class is
    finished. *)
Definition example_group : StatesGroup.class :=
  StatesGroup.Class 9 "MyStates"
    [("__module__", 5%positive); ("my_state", 1%positive);
     ("describe", 6%positive); ("next_state", 2%positive)].

Definition example_objects : objects :=
  {[ 1%positive := StateObj false EmptyString None;
     2%positive := StateObj false EmptyString None;
     5%positive := OtherObj false;
     6%positive := OtherObj true ]}.

(** A group whose field [s] is bound to an instance of a subclass of
    [State] that defines [__call__], and whose fields [a] and [b] are bound
    to one [State] object ([a = b = State()]). *)
Definition callable_group : StatesGroup.class :=
  StatesGroup.Class 9 "G"
    [("s", 1%positive); ("a", 2%positive); ("b", 2%positive)].

Definition callable_objects : objects :=
  {[ 1%positive := StateObj true EmptyString None;
     2%positive := StateObj false EmptyString None ]}.

(** Three middlewares that are not update-sensitive, over updates that are
    their own kind and a counter as [data]: the first cancels, the second
    skips, the third lets the update pass; every hook and handler counts its
    call.  And two handlers: one that returns, one that raises. *)
Definition cancelling : BaseMiddleware.t string nat :=
  BaseMiddleware.Build false []
    (λ _ d, (Ok CancelUpdate, S d)) (λ _ d _, (Ok (), S d))
    (λ _, None) (λ _, None).

Definition skipping : BaseMiddleware.t string nat :=
  BaseMiddleware.Build false []
    (λ _ d, (Ok SkipHandler, S d)) (λ _ d _, (Ok (), S d))
    (λ _, None) (λ _, None).

Definition passing : BaseMiddleware.t string nat :=
  BaseMiddleware.Build false []
    (λ _ d, (Ok RNone, S d)) (λ _ d _, (Ok (), S d))
    (λ _, None) (λ _, None).

Definition returning : Dispatcher.handler string nat :=
  Dispatcher.Handler (λ _, true) (λ _ d, (Ok RNone, S d)).

Definition raising : Dispatcher.handler string nat :=
  Dispatcher.Handler (λ _, true) (λ _ d, (Raise (Exception "boom"), S d)).

(** ** Using a store

    What a caller does with a store: register several handlers one after
    another, read the list that [get_handlers] handed out, work through a
    sequence of requests and keep what every [get_handlers] returned. *)

Section using_memory.
Context {handler : Type}.
Implicit Types (self : HandlerBackend.t) (k : key).

(** [for h in hs: store.register_handler(k, h)] *)
Fixpoint register_all self k (hs : list handler) : M (world handler) unit :=
  match hs with
  | [] => ret ()
  | h :: hs =>
      MemoryHandlerBackend.register_handler self k h;; register_all self k hs
  end.

(** The content of what [get_handlers] returned: [None], or the elements of
    the list object. *)
Definition list_contents (handlers : option loc)
    : M (world handler) (option (list handler)) :=
  λ w, match handlers with
       | None => (Ok None, w)
       | Some l => match lists w !! l with
                   | Some xs => (Ok (Some xs), w)
                   | None => (Raise TypeError, w)
                   end
       end.

(** The requests in order; the result is what the [get_handlers] among them
    returned, in order. *)
Fixpoint serve_memory self (rs : list (@request handler))
    : M (world handler) (list (option (list handler))) :=
  match rs with
  | [] => ret []
  | Register k h :: rs =>
      MemoryHandlerBackend.register_handler self k h;; serve_memory self rs
  | Clear k :: rs =>
      MemoryHandlerBackend.clear_handlers self k;; serve_memory self rs
  | Get k :: rs =>
      let* handlers := MemoryHandlerBackend.get_handlers self k in
      let* got := list_contents handlers in
      let* more := serve_memory self rs in
      ret (got :: more)
  end.

(** A store as a plain map from keys to lists of handlers, and what the
    [get_handlers] among the requests return on it: a registration appends,
    [clear_handlers] and [get_handlers] remove the key. *)
Fixpoint serve_map (m : gmap key (list handler)) (rs : list (@request handler))
    : list (option (list handler)) :=
  match rs with
  | [] => []
  | Register k h :: rs =>
      serve_map (<[k := (default [] (m !! k) ++ [h])%list]> m) rs
  | Clear k :: rs => serve_map (delete k m) rs
  | Get k :: rs => m !! k :: serve_map (delete k m) rs
  end.

End using_memory.

Section using_redis.
Context {handler : Type} `{!Pickle handler}.
Implicit Types (self : RedisHandlerBackend.t) (k : key).

(** [pickle] takes the list [l] to a payload that is not empty and back. *)
Definition faithful (l : list handler) : Prop :=
  ∃ p, pickle_dumps l = Ok p ∧ p ≠ [] ∧ pickle_loads p = Ok l.

(** [for h in hs: store.register_handler(k, h)] *)
Fixpoint redis_register_all self k (hs : list handler)
    : M (world handler) unit :=
  match hs with
  | [] => ret ()
  | h :: hs =>
      RedisHandlerBackend.register_handler self k h;;
      redis_register_all self k hs
  end.

Fixpoint serve_redis self (rs : list (@request handler))
    : M (world handler) (list (option (list handler))) :=
  match rs with
  | [] => ret []
  | Register k h :: rs =>
      RedisHandlerBackend.register_handler self k h;; serve_redis self rs
  | Clear k :: rs =>
      RedisHandlerBackend.clear_handlers self k;; serve_redis self rs
  | Get k :: rs =>
      let* got := RedisHandlerBackend.get_handlers self k in
      let* more := serve_redis self rs in
      ret (got :: more)
  end.

(** The server holds for [k] what the memory store [mem] holds for it:
    nothing (or an empty payload) where nothing waits, and otherwise a
    payload that deserializes to the waiting handlers. *)
Definition agree (wm : world handler) (mem : HandlerBackend.t)
    (wr : world handler) self k : Prop :=
  match pending wm mem k with
  | None => truthy (redis_db wr !! RedisHandlerBackend._key self k) = false
  | Some xs =>
      ∃ p, redis_db wr !! RedisHandlerBackend._key self k = Some p
           ∧ p ≠ [] ∧ pickle_loads p = Ok xs
  end.

(** [register_handler(k, ...)] finds the list [old] on the server: nothing
    (or an empty payload) and [old] is empty, or a payload that deserializes
    to [old]. *)
Definition reads (w : world handler) self k (old : list handler) : Prop :=
  (truthy (redis_db w !! RedisHandlerBackend._key self k) = false ∧ old = [])
  ∨ (∃ v, redis_db w !! RedisHandlerBackend._key self k = Some v
          ∧ v ≠ [] ∧ pickle_loads v = Ok old).

End using_redis.

(** The prefix has no colon in it. *)
Definition no_colon (prefix : string) : Prop :=
  ":"%char ∉ list_ascii_of_string prefix.

(** A second stand-in for [pickle], for handlers that are single bytes: a
    marker byte and then the handlers.  Every list goes there and back. *)
Definition byte_dumps (hs : list Byte.byte) : result bytes :=
  Ok (Byte.x80 :: hs).

Definition byte_loads (v : bytes) : result (list Byte.byte) :=
  match v with
  | Byte.x80 :: hs => Ok hs
  | _ => Raise PickleError
  end.

#[global] Instance byte_pickle : Pickle Byte.byte :=
  {| pickle_dumps := byte_dumps; pickle_loads := byte_loads |}.

(** A new memory store and a server that holds nothing, for bytes. *)
Definition fresh_memory : world Byte.byte := World {[ 1%positive := ∅ ]} ∅ ∅ [].

Definition fresh_server : world Byte.byte := World ∅ ∅ ∅ [].

(** * Properties *)

(** ** The memory store *)

Section memory.
Context {handler : Type}.
Implicit Types (w : world handler) (self : HandlerBackend.t) (k : key)
  (h : handler) (d : gmap key loc).

(** Writing one list object keeps every list object in existence. *)
Lemma insert_keeps_list (ls : gmap loc (list handler)) l xs l0 :
  is_Some (ls !! l0) → is_Some (<[l := xs]> ls !! l0).
Proof. rewrite lookup_insert_is_Some. destruct (decide (l = l0)); auto. Qed.

Create HintDb store discriminated.
#[local] Hint Resolve insert_keeps_list : store.

Lemma register_absent w self d k h :
  dicts w !! HandlerBackend.handlers self = Some d → d !! k = None →
  MemoryHandlerBackend.register_handler self k h w
  = (Ok (),
     let l := fresh (dom (lists w)) in
     World (<[HandlerBackend.handlers self := <[k := l]> d]> (dicts w))
           (<[l := [h]]> (lists w)) (redis_db w) (redis_log w)).
Proof.
  intros Hd Hk.
  unfold MemoryHandlerBackend.register_handler, bind, dict_contains.
  rewrite Hd, Hk. rewrite bool_decide_false by (intros [? ?]; discriminate).
  unfold new_list, dict_setitem, set_dicts, set_lists. simpl. by rewrite Hd.
Qed.

Lemma register_present w self d k h l xs :
  dicts w !! HandlerBackend.handlers self = Some d → d !! k = Some l →
  lists w !! l = Some xs →
  MemoryHandlerBackend.register_handler self k h w
  = (Ok (), World (dicts w) (<[l := (xs ++ [h])%list]> (lists w))
                  (redis_db w) (redis_log w)).
Proof.
  intros Hd Hk Hl.
  unfold MemoryHandlerBackend.register_handler, bind, dict_contains.
  rewrite Hd, Hk. rewrite bool_decide_true by eauto.
  unfold dict_getitem, list_append, set_lists. by rewrite Hd, Hk, Hl.
Qed.

Lemma get_handlers_eq w self d k :
  dicts w !! HandlerBackend.handlers self = Some d →
  MemoryHandlerBackend.get_handlers self k w
  = (Ok (d !! k),
     World (<[HandlerBackend.handlers self := delete k d]> (dicts w))
           (lists w) (redis_db w) (redis_log w)).
Proof.
  intros Hd. unfold MemoryHandlerBackend.get_handlers, dict_pop, set_dicts.
  by rewrite Hd.
Qed.

Lemma clear_handlers_eq w self d k :
  dicts w !! HandlerBackend.handlers self = Some d →
  MemoryHandlerBackend.clear_handlers self k w
  = (Ok (),
     World (<[HandlerBackend.handlers self := delete k d]> (dicts w))
           (lists w) (redis_db w) (redis_log w)).
Proof.
  intros Hd.
  unfold MemoryHandlerBackend.clear_handlers, bind, dict_pop, set_dicts, ret.
  by rewrite Hd.
Qed.

(** Popping a key that is not there writes the [dict] back as it was. *)
Lemma pop_absent_same w self d k :
  dicts w !! HandlerBackend.handlers self = Some d → d !! k = None →
  World (<[HandlerBackend.handlers self := delete k d]> (dicts w))
        (lists w) (redis_db w) (redis_log w) = w.
Proof.
  intros Hd Hk. rewrite delete_id by done. rewrite insert_id by done.
  by destruct w.
Qed.

(** C1.  In a memory store that holds nothing under [k],
    [register_handler(k, h1)], [register_handler(k, h2)] and then
    [get_handlers(k)] hands out a list whose content is [[h1, h2]], in this
    order, and removes it from the store: nothing is pending under [k]
    afterwards and a second [get_handlers(k)] returns [None] and changes
    nothing. *)
Theorem memory_register_register_get w self d k h1 h2 :
  dicts w !! HandlerBackend.handlers self = Some d →
  d !! k = None →
  ∃ l w',
    (MemoryHandlerBackend.register_handler self k h1;;
     MemoryHandlerBackend.register_handler self k h2;;
     MemoryHandlerBackend.get_handlers self k) w = (Ok (Some l), w')
    ∧ lists w' !! l = Some [h1; h2]
    ∧ pending w' self k = None
    ∧ MemoryHandlerBackend.get_handlers self k w' = (Ok None, w').
Proof.
  intros Hd Hk.
  set (l := fresh (dom (lists w))).
  eexists l, _. unfold bind at 1.
  rewrite (register_absent w self d k h1 Hd Hk). cbv zeta. fold l.
  unfold bind at 1.
  erewrite (register_present _ self (<[k := l]> d) k h2 l [h1]); cycle 1.
  { simpl. apply lookup_insert_eq. }
  { apply lookup_insert_eq. }
  { simpl. apply lookup_insert_eq. }
  simpl.
  erewrite get_handlers_eq by (simpl; apply lookup_insert_eq).
  simpl. rewrite lookup_insert_eq. split; [reflexivity|].
  split; [simpl; by rewrite lookup_insert_eq|].
  split.
  - unfold pending. simpl. rewrite lookup_insert_eq. simpl.
    by rewrite lookup_delete_eq.
  - erewrite get_handlers_eq by (simpl; apply lookup_insert_eq).
    simpl. rewrite lookup_delete_eq. f_equal.
    rewrite insert_insert_eq. f_equal.
    f_equal. apply delete_id, lookup_delete_eq.
Qed.

(** C9.  In a memory store that holds nothing under [k], [clear_handlers(k)]
    and [get_handlers(k)] do not raise and leave the world as it is, and
    [get_handlers(k)] returns [None]. *)
Theorem memory_absent_key w self d k :
  dicts w !! HandlerBackend.handlers self = Some d →
  d !! k = None →
  MemoryHandlerBackend.clear_handlers self k w = (Ok (), w)
  ∧ MemoryHandlerBackend.get_handlers self k w = (Ok None, w).
Proof.
  intros Hd Hk. split.
  - rewrite (clear_handlers_eq w self d k Hd).
    by rewrite (pop_absent_same w self d k Hd Hk).
  - rewrite (get_handlers_eq w self d k Hd), Hk.
    by rewrite (pop_absent_same w self d k Hd Hk).
Qed.

(** *** Two stores that share nothing *)

Lemma apart_sym w self other : apart w self other → apart w other self.
Proof. intros [Hne Hl]. split; [done|]. intros l H1 H2. by apply (Hl l). Qed.

(** Every request on [one] succeeds, keeps both stores well formed and
    apart, and leaves [other]'s [dict] and lists alone. *)
Lemma perform_frame w one other r :
  is_store w one → is_store w other → apart w one other →
  ∃ w', perform one r w = (Ok (), w')
    ∧ is_store w' one ∧ is_store w' other ∧ apart w' one other
    ∧ dicts w' !! HandlerBackend.handlers other
      = dicts w !! HandlerBackend.handlers other
    ∧ ∀ l, holds w other l → lists w' !! l = lists w !! l.
Proof.
  intros (d1 & Hd1 & Hl1) (d2 & Hd2 & Hl2) [Hne Hap].
  assert (Hpop : ∀ k,
    let w' := World (<[HandlerBackend.handlers one := delete k d1]> (dicts w))
                    (lists w) (redis_db w) (redis_log w) in
    is_store w' one ∧ is_store w' other ∧ apart w' one other
    ∧ dicts w' !! HandlerBackend.handlers other
      = dicts w !! HandlerBackend.handlers other
    ∧ ∀ l, holds w other l → lists w' !! l = lists w !! l).
  { intros k w'. subst w'. repeat split; simpl.
    - exists (delete k d1). simpl. split; [apply lookup_insert_eq|].
      intros k0 l Hk0. apply lookup_delete_Some in Hk0 as [_ Hk0]. eauto.
    - exists d2. simpl. rewrite lookup_insert_ne by done. eauto.
    - done.
    - intros l (d & k1 & Hd & Hk1) (d' & k2 & Hd' & Hk2). simpl in *.
      rewrite lookup_insert_eq in Hd. rewrite lookup_insert_ne in Hd' by done.
      simplify_eq. apply lookup_delete_Some in Hk1 as [_ Hk1].
      apply (Hap l); [by exists d1, k1 | by exists d2, k2].
    - by rewrite lookup_insert_ne.
  }
  destruct r as [k h | k | k]; simpl.
  - destruct (d1 !! k) as [l|] eqn:Hk.
    + destruct (Hl1 k l Hk) as [xs Hxs].
      rewrite (register_present w one d1 k h l xs Hd1 Hk Hxs).
      eexists; split; [reflexivity|]. repeat split; simpl.
      * exists d1. simpl. split; [done|]. intros k0 l0 Hk0.
        eauto with store.
      * exists d2. simpl. split; [done|]. intros k0 l0 Hk0.
        eauto with store.
      * done.
      * intros l0 H1 H2. by apply (Hap l0).
      * intros l0 Hl0. apply lookup_insert_ne. intros ->.
        apply (Hap l0); [by exists d1, k | done].
    + rewrite (register_absent w one d1 k h Hd1 Hk). cbv zeta.
      set (l := fresh (dom (lists w))).
      assert (Hfresh : lists w !! l = None).
      { apply not_elem_of_dom, is_fresh. }
      eexists; split; [reflexivity|]. repeat split; simpl.
      * exists (<[k := l]> d1). simpl. split; [apply lookup_insert_eq|].
        intros k0 l0 Hk0.
        apply lookup_insert_Some in Hk0 as [[_ <-]|[_ Hk0]];
          [rewrite lookup_insert_eq|]; eauto with store.
      * exists d2. simpl. rewrite lookup_insert_ne by done. split; [done|].
        intros k0 l0 Hk0.
        eauto with store.
      * done.
      * intros l0 (d & k1 & Hd & Hk1) (d' & k2 & Hd' & Hk2). simpl in *.
        rewrite lookup_insert_eq in Hd. rewrite lookup_insert_ne in Hd' by done.
        simplify_eq.
        apply lookup_insert_Some in Hk1 as [[_ <-]|[_ Hk1]].
        -- destruct (Hl2 k2 l Hk2) as [? ?]. congruence.
        -- apply (Hap l0); [by exists d1, k1 | by exists d2, k2].
      * by rewrite lookup_insert_ne.
      * intros l0 (d & k0 & Hd & Hk0). apply lookup_insert_ne. intros <-.
        simplify_eq. destruct (Hl2 k0 l Hk0) as [? ?]. congruence.
  - rewrite (clear_handlers_eq w one d1 k Hd1).
    eexists; split; [reflexivity|]. apply Hpop.
  - unfold bind. rewrite (get_handlers_eq w one d1 k Hd1). unfold ret.
    eexists; split; [reflexivity|]. apply Hpop.
Qed.

Lemma script_keeps_apart first second rs : ∀ w,
  is_store w first → is_store w second → apart w first second →
  ∃ w', script first second rs w = (Ok (), w')
    ∧ is_store w' first ∧ is_store w' second ∧ apart w' first second.
Proof.
  induction rs as [|[to_first r] rs IH]; intros w H1 H2 Hap.
  - exists w. split; [reflexivity|]. auto.
  - simpl. unfold bind at 1. destruct to_first.
    + destruct (perform_frame w first second r H1 H2 Hap)
        as (w1 & -> & H1' & H2' & Hap' & _).
      by apply IH.
    + destruct (perform_frame w second first r H2 H1 (apart_sym _ _ _ Hap))
        as (w1 & -> & H2' & H1' & Hap' & _).
      apply IH; [done..|]. by apply apart_sym.
Qed.

(** Two constructions with [handlers=None] give two stores with two
    different, empty [dict]s. *)
Lemma init_twice_apart w0 :
  let first := HandlerBackend.Build (fresh (dom (dicts w0))) in
  let second :=
    HandlerBackend.Build (fresh (dom (<[fresh (dom (dicts w0)) := ∅]> (dicts w0)))) in
  ∃ w, (let* a := MemoryHandlerBackend.__init__ None in
        let* b := MemoryHandlerBackend.__init__ None in
        ret (a, b)) w0 = (Ok (first, second), w)
    ∧ dicts w !! HandlerBackend.handlers first = Some ∅
    ∧ dicts w !! HandlerBackend.handlers second = Some ∅
    ∧ is_store w first ∧ is_store w second ∧ apart w first second.
Proof.
  intros first second.
  set (d1 := fresh (dom (dicts w0))) in *.
  set (d2 := fresh (dom (<[d1 := ∅]> (dicts w0)))) in *.
  assert (Hne : d1 ≠ d2).
  { intros Heq. apply (is_fresh (dom (<[d1 := ∅]> (dicts w0)))).
    fold d2. rewrite <- Heq. apply elem_of_dom. rewrite lookup_insert_eq. eauto. }
  eexists. split; [reflexivity|]. simpl.
  assert (He1 : <[d2 := ∅]> (<[d1 := ∅]> (dicts w0)) !! d1
                = Some (∅ : gmap key loc)).
  { rewrite lookup_insert_ne by done. apply lookup_insert_eq. }
  assert (He2 : <[d2 := ∅]> (<[d1 := ∅]> (dicts w0)) !! d2
                = Some (∅ : gmap key loc)) by apply lookup_insert_eq.
  do 2 (split; [done|]). repeat split.
  - exists ∅. simpl. split; [done|]. intros k l Hk.
    by rewrite lookup_empty in Hk.
  - exists ∅. simpl. split; [done|]. intros k l Hk.
    by rewrite lookup_empty in Hk.
  - done.
  - intros l _ (d & k & Hd & Hk). simpl in Hd. fold d1 d2 in Hd.
    rewrite He2 in Hd. simplify_eq.
Qed.

Lemma frame_undisturbed w one other k h k' :
  is_store w one → is_store w other → apart w one other →
  undisturbed w one other k h k'.
Proof.
  intros H1 H2 Hap.
  destruct (perform_frame w one other (Register k h) H1 H2 Hap)
    as (w' & Hreg & _ & _ & _ & Hd & Hl).
  destruct H2 as (d2 & Hd2 & _).
  assert (Hd2' : dicts w' !! HandlerBackend.handlers other = Some d2)
    by congruence.
  exists w'. split; [exact Hreg|].
  rewrite !(get_handlers_eq w other d2 k' Hd2),
          !(get_handlers_eq w' other d2 k' Hd2'),
          !(clear_handlers_eq w other d2 k' Hd2),
          !(clear_handlers_eq w' other d2 k' Hd2'). simpl.
  assert (Hpop : same_store
    (World (<[HandlerBackend.handlers other := delete k' d2]> (dicts w))
           (lists w) (redis_db w) (redis_log w))
    (World (<[HandlerBackend.handlers other := delete k' d2]> (dicts w'))
           (lists w') (redis_db w') (redis_log w')) other).
  { split; simpl; [by rewrite !lookup_insert_eq|].
    intros k0. unfold pending. simpl. rewrite !lookup_insert_eq. simpl.
    destruct (delete k' d2 !! k0) as [l|] eqn:Hk0; [simpl|done].
    apply lookup_delete_Some in Hk0 as [_ Hk0].
    apply Hl. by exists d2, k0. }
  split.
  { split; [done|]. intros k0. unfold pending. rewrite Hd2, Hd2'. simpl.
    destruct (d2 !! k0) as [l|] eqn:Hk0; [simpl|done].
    apply Hl. by exists d2, k0. }
  split; [done|]. split; [exact Hpop|]. split; [done|]. exact Hpop.
Qed.

(** C10.  Two memory stores constructed with [handlers=None] get two
    different [dict] objects, both empty.  After any sequence of calls on
    the two, for every [k], [h] and [k'], [register_handler(k, h)] on either
    store leaves the other as it is, and [get_handlers(k')] and
    [clear_handlers(k')] on the other return the same and leave it in the
    same state as without the registration. *)
Theorem memory_default_stores_independent (w0 : world handler) rs k h k' :
  ∃ first second w1 w,
    (let* a := MemoryHandlerBackend.__init__ None in
     let* b := MemoryHandlerBackend.__init__ None in
     ret (a, b)) w0 = (Ok (first, second), w1)
    ∧ HandlerBackend.handlers first ≠ HandlerBackend.handlers second
    ∧ dicts w1 !! HandlerBackend.handlers first = Some ∅
    ∧ dicts w1 !! HandlerBackend.handlers second = Some ∅
    ∧ script first second rs w1 = (Ok (), w)
    ∧ undisturbed w first second k h k'
    ∧ undisturbed w second first k h k'.
Proof.
  destruct (init_twice_apart w0) as (w1 & Hinit & He1 & He2 & H1 & H2 & Hap).
  destruct (script_keeps_apart _ _ rs w1 H1 H2 Hap)
    as (w & Hrun & H1' & H2' & Hap').
  eexists _, _, w1, w. split; [exact Hinit|].
  split; [apply Hap|]. do 2 (split; [done|]). split; [exact Hrun|].
  split; apply frame_undisturbed; try done. by apply apart_sym.
Qed.

(** *** Two keys of one store *)

(** A request on one key succeeds in a store whose lists are not shared,
    keeps it so, and leaves what waits under any other key alone. *)
Lemma perform_other_key w self r :
  is_store w self → unshared w self →
  ∃ w', perform self r w = (Ok (), w')
    ∧ (∀ k2, request_key r ≠ k2 → pending w' self k2 = pending w self k2)
    ∧ is_store w' self ∧ unshared w' self.
Proof.
  intros (d & Hd & Hl) Hun.
  assert (Hpop : ∀ k,
    let w' := World (<[HandlerBackend.handlers self := delete k d]> (dicts w))
                    (lists w) (redis_db w) (redis_log w) in
    (∀ k2, k ≠ k2 → pending w' self k2 = pending w self k2)
    ∧ is_store w' self ∧ unshared w' self).
  { intros k w'. subst w'. split; [|split].
    - intros k2 Hk. unfold pending. simpl. rewrite lookup_insert_eq, Hd. simpl.
      by rewrite lookup_delete_ne.
    - exists (delete k d). simpl. split; [apply lookup_insert_eq|].
      intros k0 l Hk0. apply lookup_delete_Some in Hk0 as [_ Hk0]. eauto.
    - intros d' k0 k0' l Hd' Hk0 Hk0'. simpl in Hd'.
      rewrite lookup_insert_eq in Hd'. simplify_eq.
      apply lookup_delete_Some in Hk0 as [_ Hk0].
      apply lookup_delete_Some in Hk0' as [_ Hk0'].
      by apply (Hun d k0 k0' l). }
  destruct r as [k h | k | k]; simpl in *.
  - destruct (d !! k) as [l|] eqn:Hk.
    + destruct (Hl k l Hk) as [xs Hxs].
      rewrite (register_present w self d k h l xs Hd Hk Hxs).
      eexists; split; [reflexivity|]. split; [|split].
      * intros k2 Hne. unfold pending. simpl. rewrite Hd. simpl.
        destruct (d !! k2) as [l2|] eqn:Hk2; [simpl|done].
        apply lookup_insert_ne. intros ->.
        apply Hne. by apply (Hun d k k2 l2).
      * exists d. simpl. split; [done|]. intros k0 l0 Hk0.
        eauto with store.
      * intros d' k0 k0' l0 Hd'. simpl in Hd'. simplify_eq. apply Hun, Hd.
    + rewrite (register_absent w self d k h Hd Hk). cbv zeta.
      set (l := fresh (dom (lists w))).
      assert (Hfresh : lists w !! l = None).
      { apply not_elem_of_dom, is_fresh. }
      assert (Hold : ∀ k0, d !! k0 ≠ Some l).
      { intros k0 Hk0. destruct (Hl k0 l Hk0) as [? ?]. congruence. }
      eexists; split; [reflexivity|]. split; [|split].
      * intros k2 Hne. unfold pending. simpl.
        rewrite lookup_insert_eq, Hd. simpl.
        rewrite lookup_insert_ne by done.
        destruct (d !! k2) as [l2|] eqn:Hk2; [simpl|done].
        apply lookup_insert_ne. intros <-. by apply (Hold k2).
      * exists (<[k := l]> d). simpl. split; [apply lookup_insert_eq|].
        intros k0 l0 Hk0.
        apply lookup_insert_Some in Hk0 as [[_ <-]|[_ Hk0]];
          [rewrite lookup_insert_eq|]; eauto with store.
      * intros d' k0 k0' l0 Hd' Hk0 Hk0'. simpl in Hd'.
        rewrite lookup_insert_eq in Hd'. simplify_eq.
        apply lookup_insert_Some in Hk0 as [[<- <-]|[? Hk0]];
          apply lookup_insert_Some in Hk0' as [[<- ?]|[? Hk0']];
          try done; simplify_eq.
        -- by destruct (Hold k0').
        -- by destruct (Hold k0).
        -- by apply (Hun d k0 k0' l0).
  - rewrite (clear_handlers_eq w self d k Hd).
    eexists; split; [reflexivity|]. apply Hpop.
  - unfold bind. rewrite (get_handlers_eq w self d k Hd). unfold ret.
    eexists; split; [reflexivity|]. apply Hpop.
Qed.

(** A store constructed with [handlers=None] and used through its three
    operations never shares a list between two keys. *)
Lemma default_store_unshared (w0 : world handler) rs :
  ∃ self w,
    (let* a := MemoryHandlerBackend.__init__ None in
     script a a rs;; ret a) w0 = (Ok self, w)
    ∧ is_store w self ∧ unshared w self.
Proof.
  set (self := HandlerBackend.Build (fresh (dom (dicts w0)))).
  set (w1 := World (<[fresh (dom (dicts w0)) := ∅]> (dicts w0)) (lists w0)
                   (redis_db w0) (redis_log w0)).
  assert (H1 : is_store w1 self).
  { exists ∅. simpl. rewrite lookup_insert_eq. split; [done|].
    intros k l Hk. by rewrite lookup_empty in Hk. }
  assert (Hun1 : unshared w1 self).
  { intros d k k' l Hd Hk. simpl in Hd. rewrite lookup_insert_eq in Hd.
    simplify_eq. }
  assert (Hrun : ∀ w, is_store w self → unshared w self →
    ∃ w', script self self rs w = (Ok (), w')
      ∧ is_store w' self ∧ unshared w' self).
  { induction rs as [|[b r] rs IH]; intros w Hs Hun.
    - exists w. split; [reflexivity|]. auto.
    - simpl. unfold bind at 1.
      assert (Hb : (if b then self else self) = self) by by destruct b.
      rewrite Hb.
      destruct (perform_other_key w self r Hs Hun)
        as (w'' & -> & _ & Hs' & Hun').
      by apply IH. }
  destruct (Hrun w1 H1 Hun1) as (w & Hw & Hs & Hun).
  exists self, w. split; [|done].
  unfold bind, MemoryHandlerBackend.__init__, HandlerBackend.__init__,
    new_dict, ret. simpl. change (set_dicts _ w0) with w1. fold self.
  by rewrite Hw.
Qed.

End memory.

(** Two registrations under the key ["chat"] of [example_store], which holds
    nothing there. *)
Lemma memory_register_register_get_witness :
  dicts example_world !! HandlerBackend.handlers example_store
  = Some {[ KInt 5 := 1%positive ]}
  ∧ ({[ KInt 5 := 1%positive ]} : gmap key loc) !! KStr "chat" = None
  ∧ ∃ l w',
      (MemoryHandlerBackend.register_handler example_store (KStr "chat") 20;;
       MemoryHandlerBackend.register_handler example_store (KStr "chat") 21;;
       MemoryHandlerBackend.get_handlers example_store (KStr "chat"))
        example_world = (Ok (Some l), w')
      ∧ lists w' !! l = Some [20; 21]
      ∧ pending w' example_store (KStr "chat") = None
      ∧ MemoryHandlerBackend.get_handlers example_store (KStr "chat") w'
        = (Ok None, w').
Proof.
  split; [reflexivity|]. split; [reflexivity|].
  apply (memory_register_register_get example_world example_store
           {[ KInt 5 := 1%positive ]} (KStr "chat") 20 21); reflexivity.
Defined.

(** Clearing and reading the key ["chat"] of [example_store], which holds
    nothing there. *)
Lemma memory_absent_key_witness :
  dicts example_world !! HandlerBackend.handlers example_store
  = Some {[ KInt 5 := 1%positive ]}
  ∧ ({[ KInt 5 := 1%positive ]} : gmap key loc) !! KStr "chat" = None
  ∧ MemoryHandlerBackend.clear_handlers example_store (KStr "chat")
      example_world = (Ok (), example_world)
  ∧ MemoryHandlerBackend.get_handlers example_store (KStr "chat")
      example_world = (Ok None, example_world).
Proof.
  split; [reflexivity|]. split; [reflexivity|].
  apply (memory_absent_key example_world example_store
           {[ KInt 5 := 1%positive ]} (KStr "chat")); reflexivity.
Defined.

(** ** The Redis store *)

(** Open the methods of the Redis store down to the server's table. *)
Ltac redis_unfold :=
  unfold RedisHandlerBackend.register_handler,
    RedisHandlerBackend.get_handlers, RedisHandlerBackend.clear_handlers,
    bind, Redis.get, Redis.set, Redis.delete, Redis.log, Redis.set_db,
    RedisHandlerBackend.pickled, ret.

Section redis.
Context {handler : Type} `{!Pickle handler}.
Implicit Types (w : world handler) (self : RedisHandlerBackend.t) (k : key)
  (h : handler) (v p : bytes).

Lemma key_eq self k :
  RedisHandlerBackend._key self k
  = RedisHandlerBackend.prefix self ++ ":" ++ str k.
Proof. reflexivity. Qed.

(** C6.  [register_handler(k, h)] of a Redis store works on the name
    [prefix + ':' + str(k)].  It reads the payload stored there; [old] is
    the list it deserializes to, the empty list when the name is not set (or
    holds an empty payload).  It then writes the serialization [p] of [old]
    with [h] appended under the same name: the server has received one read
    and one write of that name, and nothing else changes. *)
Theorem redis_register_handler self k h w old p :
  let name := RedisHandlerBackend.prefix self ++ ":" ++ str k in
  ((redis_db w !! name = None ∨ redis_db w !! name = Some []) ∧ old = [])
  ∨ (∃ v, redis_db w !! name = Some v ∧ v ≠ [] ∧ pickle_loads v = Ok old) →
  pickle_dumps (old ++ [h])%list = Ok p →
  RedisHandlerBackend.register_handler self k h w
  = (Ok (), World (dicts w) (lists w) (<[name := p]> (redis_db w))
                  (redis_log w ++ [GET name; SET name p])%list).
Proof.
  intros name Hread Hdumps.
  redis_unfold. rewrite key_eq. fold name. simpl.
  destruct Hread as [[[-> | ->] ->] | (v & -> & Hv & Hloads)].
  - simpl in *. rewrite Hdumps. by rewrite <- app_assoc.
  - simpl in *. rewrite Hdumps. by rewrite <- app_assoc.
  - destruct v as [|b v]; [done|]. rewrite Hloads. simpl. rewrite Hdumps.
    by rewrite <- app_assoc.
Qed.

(** C7.  [get_handlers(k)] of a Redis store reads the payload under
    [prefix + ':' + str(k)].  A non-empty payload is deserialized and then
    the name is deleted, and the deserialized list is returned; when
    deserializing raises, nothing has been deleted.  When nothing is set
    under the name (or the payload is empty) the result is [None] and the
    read is the only command the server has received. *)
Theorem redis_get_handlers self k w :
  let name := RedisHandlerBackend.prefix self ++ ":" ++ str k in
  (∀ v hs, redis_db w !! name = Some v → v ≠ [] → pickle_loads v = Ok hs →
     RedisHandlerBackend.get_handlers self k w
     = (Ok (Some hs),
        World (dicts w) (lists w) (delete name (redis_db w))
              (redis_log w ++ [GET name; DEL name])%list))
  ∧ (∀ v e, redis_db w !! name = Some v → v ≠ [] → pickle_loads v = Raise e →
     RedisHandlerBackend.get_handlers self k w
     = (Raise e,
        World (dicts w) (lists w) (redis_db w) (redis_log w ++ [GET name])%list))
  ∧ (truthy (redis_db w !! name) = false →
     RedisHandlerBackend.get_handlers self k w
     = (Ok None,
        World (dicts w) (lists w) (redis_db w) (redis_log w ++ [GET name])%list)).
Proof.
  intros name.
  redis_unfold. rewrite key_eq. fold name. simpl. repeat split.
  - intros v hs -> Hv Hloads. destruct v as [|b v]; [done|].
    rewrite Hloads. simpl. by rewrite <- app_assoc.
  - intros v e -> Hv Hloads. destruct v as [|b v]; [done|].
    by rewrite Hloads.
  - intros Hfalse. destruct (redis_db w !! name) as [[|b v]|]; done.
Qed.

(** C8.  When the Redis client library could not be imported, constructing
    a Redis store raises at once, with a message that says so: no store is
    returned, whatever the arguments, and the server is not contacted. *)
Theorem redis_init_without_client handlers host port db prefix password w :
  ∃ w', RedisHandlerBackend.__init__ (redis_installed false) handlers host
          port db prefix password w
        = (Raise (Exception
             "Redis is not installed. Install it via 'pip install redis'"),
           w')
    ∧ redis_db w' = redis_db w ∧ redis_log w' = redis_log w
    ∧ lists w' = lists w.
Proof.
  unfold RedisHandlerBackend.__init__, HandlerBackend.__init__, bind.
  destruct handlers as [d|]; simpl; eexists; split; reflexivity || done.
Qed.

End redis.

(** ** Keys *)

Lemma str_int_inj a b : str (KInt a) = str (KInt b) → a = b.
Proof.
  unfold str. intros Heq. apply DecimalZ.to_int_inj.
  assert (Hnn : ∀ z, Z.to_int z ≠ Decimal.Pos Decimal.Nil
                     ∧ Z.to_int z ≠ Decimal.Neg Decimal.Nil).
  { intros [|q|q]; simpl; split; try discriminate;
      intros [= Hq]; by apply DecimalPos.Unsigned.to_uint_nonnil in Hq. }
  destruct (Hnn a) as [Ha1 Ha2]. destruct (Hnn b) as [Hb1 Hb2].
  pose proof (NilZero.isi _ Ha1 Ha2) as Ha.
  pose proof (NilZero.isi _ Hb1 Hb2) as Hb.
  rewrite Heq in Ha. congruence.
Qed.

(** Within one store, the name on the server determines [str(k)]. *)
Lemma key_inj self k1 k2 :
  RedisHandlerBackend._key self k1 = RedisHandlerBackend._key self k2 →
  str k1 = str k2.
Proof.
  unfold RedisHandlerBackend._key, join. intros Heq.
  apply String.app_inj in Heq. by apply String.app_inj in Heq.
Qed.

Section keys.
Context {handler : Type} `{!Pickle handler}.
Implicit Types (w : world handler) (k : key) (h : handler).

(** Whatever it returns or raises, an operation of a Redis store leaves
    every name but its own as it is. *)
Lemma redis_other_name (self : RedisHandlerBackend.t) k h w name :
  RedisHandlerBackend._key self k ≠ name →
  redis_db (RedisHandlerBackend.register_handler self k h w).2 !! name
  = redis_db w !! name
  ∧ redis_db (RedisHandlerBackend.clear_handlers self k w).2 !! name
    = redis_db w !! name
  ∧ redis_db (RedisHandlerBackend.get_handlers self k w).2 !! name
    = redis_db w !! name.
Proof.
  intros Hne. redis_unfold. simpl. split; [|split].
  - destruct (redis_db w !! RedisHandlerBackend._key self k) as [[|b v]|];
      simpl; repeat (case_match; simpl); simplify_eq;
      try done; by rewrite lookup_insert_ne.
  - by rewrite lookup_delete_ne.
  - destruct (redis_db w !! RedisHandlerBackend._key self k) as [[|b v]|];
      simpl; repeat (case_match; simpl); simplify_eq;
      try done; by rewrite lookup_delete_ne.
Qed.

End keys.

Section distinct_keys.
Context {handler : Type} `{!Pickle handler}.

(** C4, as amended.  Let [k1] and [k2] be two different keys.  In a memory
    store whose keys are bound to different list objects, every operation on
    [k1] succeeds and leaves what waits under [k2] as it is.  In a Redis
    store the two names on the server differ as soon as [str(k1)] and
    [str(k2)] differ, and then every operation on [k1] leaves the payload
    of [k2] as it is; [str(k1)] and [str(k2)] differ when both keys are
    integers and when both are strings. *)
Theorem distinct_keys_kept_apart (k1 k2 : key) :
  k1 ≠ k2 →
  (∀ (w : world handler) (self : HandlerBackend.t) r,
     request_key r = k1 → is_store w self → unshared w self →
     ∃ w', perform self r w = (Ok (), w')
       ∧ pending w' self k2 = pending w self k2)
  ∧ (∀ self : RedisHandlerBackend.t,
       str k1 ≠ str k2 →
       RedisHandlerBackend._key self k1 ≠ RedisHandlerBackend._key self k2
       ∧ ∀ (w : world handler) (h : handler),
           let name := RedisHandlerBackend._key self k2 in
           redis_db (RedisHandlerBackend.register_handler self k1 h w).2 !! name
           = redis_db w !! name
           ∧ redis_db (RedisHandlerBackend.clear_handlers self k1 w).2 !! name
             = redis_db w !! name
           ∧ redis_db (RedisHandlerBackend.get_handlers self k1 w).2 !! name
             = redis_db w !! name)
  ∧ ((∃ a b, k1 = KInt a ∧ k2 = KInt b) ∨ (∃ s t, k1 = KStr s ∧ k2 = KStr t) →
     str k1 ≠ str k2).
Proof.
  intros Hne. split; [|split].
  - intros w self r Hr Hs Hun.
    destruct (perform_other_key w self r Hs Hun) as (w' & Hrun & Hk2 & _).
    exists w'. split; [done|]. apply Hk2. by rewrite Hr.
  - intros self Hstr.
    assert (Hname : RedisHandlerBackend._key self k1
                    ≠ RedisHandlerBackend._key self k2).
    { intros Heq. by apply Hstr, (key_inj self). }
    split; [done|]. intros w h name. by apply redis_other_name.
  - intros [(a & b & -> & ->) | (s & t & -> & ->)] Heq.
    + apply str_int_inj in Heq. congruence.
    + simpl in Heq. congruence.
Qed.

End distinct_keys.

(** C4, as stated, fails: the integer [1] and the string ["1"] are two keys
    with one name on the server, so that what is registered under the one is
    handed out, and removed, under the other. *)
Lemma int_and_str_keys_collide :
  KInt 1 ≠ KStr "1"
  ∧ RedisHandlerBackend._key example_redis (KInt 1)
    = RedisHandlerBackend._key example_redis (KStr "1")
  ∧ (RedisHandlerBackend.register_handler example_redis (KInt 1) 20;;
     RedisHandlerBackend.get_handlers example_redis (KStr "1"))
      example_server
    = (Ok (Some [20]),
       World {[ 1%positive := ∅ ]} ∅
             {[ "aminobot:5" := [Byte.x80; Byte.x0a; Byte.x0b] ]}
             [GET "aminobot:1"; SET "aminobot:1" [Byte.x80; Byte.x14];
              GET "aminobot:1"; DEL "aminobot:1"]).
Proof.
  split; [discriminate|]. split; [reflexivity|]. vm_compute. reflexivity.
Qed.

(** [example_store] is well formed and shares no list. *)
Lemma example_world_is_store : is_store example_world example_store.
Proof.
  exists {[ KInt 5 := 1%positive ]}. split; [reflexivity|].
  intros k l [_ <-]%lookup_singleton_Some. by exists [10; 11].
Qed.

Lemma example_world_unshared : unshared example_world example_store.
Proof.
  intros d k k' l [= <-] [<- _]%lookup_singleton_Some
    [<- _]%lookup_singleton_Some.
  reflexivity.
Qed.

(** The keys ["chat"] and [5], in [example_store] and in [example_redis]. *)
Lemma distinct_keys_kept_apart_witness :
  KStr "chat" ≠ KInt 5
  ∧ (∃ w', perform example_store (Register (KStr "chat") 12) example_world
           = (Ok (), w')
       ∧ pending w' example_store (KInt 5) = Some [10; 11])
  ∧ RedisHandlerBackend._key example_redis (KStr "chat")
    ≠ RedisHandlerBackend._key example_redis (KInt 5)
  ∧ redis_db (RedisHandlerBackend.get_handlers example_redis (KStr "chat")
                example_server).2 !! "aminobot:5"
    = Some [Byte.x80; Byte.x0a; Byte.x0b].
Proof.
  assert (Hne : KStr "chat" ≠ KInt 5) by discriminate.
  assert (Hstr : str (KStr "chat") ≠ str (KInt 5)) by discriminate.
  destruct (distinct_keys_kept_apart (handler := nat)
              (KStr "chat") (KInt 5) Hne) as (Hmem & Hredis & _).
  split; [exact Hne|]. split.
  - apply (Hmem example_world example_store (Register (KStr "chat") 12)).
    + reflexivity.
    + exact example_world_is_store.
    + exact example_world_unshared.
  - destruct (Hredis example_redis Hstr) as [Hname Hframe]. split.
    + exact Hname.
    + destruct (Hframe example_server 0) as (_ & _ & Hget). exact Hget.
Defined.

(** Registering a third handler for the key [5] on [example_server]. *)
Lemma redis_register_handler_witness :
  (∃ v, redis_db example_server !! "aminobot:5" = Some v ∧ v ≠ []
        ∧ pickle_loads v = Ok [10; 11])
  ∧ pickle_dumps [10; 11; 12] = Ok [Byte.x80; Byte.x0a; Byte.x0b; Byte.x0c]
  ∧ RedisHandlerBackend.register_handler example_redis (KInt 5) 12
      example_server
    = (Ok (),
       World {[ 1%positive := ∅ ]} ∅
             (<[ "aminobot:5" := [Byte.x80; Byte.x0a; Byte.x0b; Byte.x0c] ]>
                {[ "aminobot:5" := [Byte.x80; Byte.x0a; Byte.x0b] ]})
             [GET "aminobot:5";
              SET "aminobot:5" [Byte.x80; Byte.x0a; Byte.x0b; Byte.x0c]]).
Proof.
  assert (Hread :
    ∃ v, redis_db example_server !! "aminobot:5" = Some v ∧ v ≠ []
         ∧ pickle_loads v = Ok [10; 11]).
  { exists [Byte.x80; Byte.x0a; Byte.x0b].
    split; [reflexivity|]. split; [discriminate|reflexivity]. }
  split; [exact Hread|]. split; [reflexivity|].
  apply (redis_register_handler example_redis (KInt 5) 12 example_server
           [10; 11] [Byte.x80; Byte.x0a; Byte.x0b; Byte.x0c]
           (or_intror Hread)).
  reflexivity.
Defined.

(** Reading the handlers of the key [5] on [example_server], and of the
    key [6], which has none. *)
Lemma redis_get_handlers_witness :
  RedisHandlerBackend.get_handlers example_redis (KInt 5) example_server
  = (Ok (Some [10; 11]),
     World {[ 1%positive := ∅ ]} ∅
           (delete "aminobot:5"
              {[ "aminobot:5" := [Byte.x80; Byte.x0a; Byte.x0b] ]})
           [GET "aminobot:5"; DEL "aminobot:5"])
  ∧ RedisHandlerBackend.get_handlers example_redis (KInt 6) example_server
    = (Ok None,
       World {[ 1%positive := ∅ ]} ∅
             {[ "aminobot:5" := [Byte.x80; Byte.x0a; Byte.x0b] ]}
             [GET "aminobot:6"]).
Proof.
  split.
  - apply (proj1 (redis_get_handlers example_redis (KInt 5) example_server)
             [Byte.x80; Byte.x0a; Byte.x0b] [10; 11]);
      [reflexivity | discriminate | reflexivity].
  - apply (proj2 (proj2 (redis_get_handlers example_redis (KInt 6)
                           example_server))).
    reflexivity.
Defined.

(** ** States *)

Lemma list_ascii_of_append (a b : string) :
  list_ascii_of_string (a ++ b)
  = (list_ascii_of_string a ++ list_ascii_of_string b)%list.
Proof. induction a as [|c a IH]; simpl; [done|]. by rewrite IH. Qed.

Lemma append_inv_tail (a b t : string) : a ++ t = b ++ t → a = b.
Proof.
  intros Heq. apply (f_equal list_ascii_of_string) in Heq.
  rewrite !list_ascii_of_append in Heq. apply app_inv_tail in Heq.
  rewrite <- (string_of_list_ascii_of_string a),
          <- (string_of_list_ascii_of_string b).
  by rewrite Heq.
Qed.

Section states.
Import StatesGroup.
Implicit Types (σ : objects) (c : class) (value : loc).

(** The loop only writes [name] and [group]: what an object is an instance
    of and whether it is callable stay as they are. *)
Lemma visit_kind c item σ v :
  isinstance_State (visit c item σ) v = isinstance_State σ v
  ∧ callable (visit c item σ) v = callable σ v.
Proof.
  destruct item as [name value]. unfold visit.
  destruct (_ && _ && _); [|done].
  unfold set_name_group, isinstance_State, callable.
  destruct (σ !! value) as [[cb nm g|cb]|] eqn:Hv; [|done..].
  destruct (decide (value = v)) as [->|Hne].
  - by rewrite lookup_insert_eq, Hv.
  - by rewrite lookup_insert_ne.
Qed.

Lemma visit_all_kind c items : ∀ σ v,
  isinstance_State (visit_all c items σ) v = isinstance_State σ v
  ∧ callable (visit_all c items σ) v = callable σ v.
Proof.
  induction items as [|item items IH]; intros σ v; simpl; [done|].
  destruct (IH (visit c item σ) v) as [-> ->]. apply visit_kind.
Qed.

Lemma visit_all_app c items items' σ :
  visit_all c (items ++ items') σ = visit_all c items' (visit_all c items σ).
Proof. revert σ. induction items as [|item items IH]; intros σ; simpl; auto. Qed.

(** An item that binds another object leaves this one alone. *)
Lemma visit_other c name value' σ value :
  value' ≠ value → visit c (name, value') σ !! value = σ !! value.
Proof.
  intros Hne. unfold visit. destruct (_ && _ && _); [|done].
  unfold set_name_group. destruct (σ !! value') as [[cb nm g|cb]|]; [|done..].
  by rewrite lookup_insert_ne.
Qed.

Lemma visit_all_other c items value : ∀ σ,
  (∀ name, (name, value) ∉ items) →
  visit_all c items σ !! value = σ !! value.
Proof.
  induction items as [|[name value'] items IH]; intros σ Hnot; simpl; [done|].
  rewrite IH.
  - apply visit_other. intros ->. apply (Hnot name). left.
  - intros name' Hin. apply (Hnot name'). by right.
Qed.

(** An item that qualifies gets its name and its group. *)
Lemma visit_state c name value σ :
  String.prefix "__" name = false →
  isinstance_State σ value = true → callable σ value = false →
  visit c (name, value) σ !! value
  = Some (StateObj false (__name__ c ++ ":" ++ name) (Some (cls c))).
Proof.
  intros Hname Hinst Hcall. unfold visit. rewrite Hname, Hinst, Hcall. simpl.
  unfold set_name_group, isinstance_State, callable in *.
  destruct (σ !! value) as [[cb nm g|cb]|]; [|done..].
  subst cb. by rewrite lookup_insert_eq.
Qed.

(** C3, as amended.  Let the field [s] of the group [c] be bound to a
    [State] instance that is not callable, and let [s] not start with two
    underscores.  When the loop of [__init_subclass__] has passed [s], the
    instance has the name [c.__name__ + ':' + s] and the group [c]; it still
    has them when [__init_subclass__] returns unless a later field of [c] is
    bound to the same instance.  The name differs from the one that a group
    with another [__name__] gives to a field [s]. *)
Theorem init_subclass_names_state c σ before s value after :
  __dict__ c = (before ++ (s, value) :: after)%list →
  String.prefix "__" s = false →
  isinstance_State σ value = true →
  callable σ value = false →
  let named := StateObj false (__name__ c ++ ":" ++ s) (Some (cls c)) in
  visit_all c (before ++ [(s, value)]) σ !! value = Some named
  ∧ ((∀ s', (s', value) ∉ after) →
     __init_subclass__ c σ !! value = Some named)
  ∧ (∀ c', __name__ c' ≠ __name__ c →
     __name__ c' ++ ":" ++ s ≠ __name__ c ++ ":" ++ s).
Proof.
  intros Hdict Hs Hinst Hcall named.
  assert (Hpassed :
    visit_all c (before ++ [(s, value)]) σ !! value = Some named).
  { rewrite visit_all_app. simpl.
    destruct (visit_all_kind c before σ value) as [Hi Hc].
    apply visit_state; congruence. }
  split; [exact Hpassed|]. split.
  - intros Hlater. unfold __init_subclass__. rewrite Hdict.
    change (before ++ (s, value) :: after)%list
      with (before ++ [(s, value)] ++ after)%list.
    rewrite app_assoc, visit_all_app. by rewrite visit_all_other.
  - intros c' Hne Heq. by apply Hne, (append_inv_tail _ _ (":" ++ s)).
Qed.

(** C5, as amended.  Two descriptors are equal iff they are one object, and
    then they have one name. *)
Theorem state_eq_is_identity (d1 d2 : loc) :
  (State.__eq__ d1 d2 = true ↔ d1 = d2)
  ∧ ∀ σ, State.__eq__ d1 d2 = true → State.__str__ d1 σ = State.__str__ d2 σ.
Proof.
  unfold State.__eq__. split.
  - apply bool_decide_eq_true.
  - intros σ Heq. apply bool_decide_eq_true in Heq. by subst.
Qed.

End states.

(** The field [my_state] of [example_group]. *)
Lemma init_subclass_names_state_witness :
  StatesGroup.__dict__ example_group
  = ([("__module__", 5%positive)] ++ ("my_state", 1%positive)
     :: [("describe", 6%positive); ("next_state", 2%positive)])%list
  ∧ String.prefix "__" "my_state" = false
  ∧ isinstance_State example_objects 1 = true
  ∧ callable example_objects 1 = false
  ∧ StatesGroup.visit_all example_group
      [("__module__", 5%positive); ("my_state", 1%positive)] example_objects
    !! 1%positive
    = Some (StateObj false "MyStates:my_state" (Some 9%positive))
  ∧ StatesGroup.__init_subclass__ example_group example_objects !! 1%positive
    = Some (StateObj false "MyStates:my_state" (Some 9%positive)).
Proof.
  do 4 (split; [reflexivity|]).
  destruct (init_subclass_names_state example_group example_objects
              [("__module__", 5%positive)] "my_state" 1%positive
              [("describe", 6%positive); ("next_state", 2%positive)]
              eq_refl eq_refl eq_refl eq_refl) as (Hpassed & Hfinal & _).
  split; [exact Hpassed|]. apply Hfinal.
  intros s' Hin. apply list_elem_of_In in Hin.
  destruct Hin as [[= _ ?]|[[= _ ?]|[]]].
Defined.

(** C3, as stated, fails: a field bound to an instance of [State] that is
    callable is passed over, whatever its name; and of two fields bound to
    one instance, the first does not give it its name. *)
Lemma callable_state_not_named :
  (("s", 1%positive) ∈ StatesGroup.__dict__ callable_group
   ∧ String.prefix "__" "s" = false
   ∧ isinstance_State callable_objects 1 = true
   ∧ StatesGroup.__init_subclass__ callable_group callable_objects
     !! 1%positive = Some (StateObj true EmptyString None))
  ∧ (("a", 2%positive) ∈ StatesGroup.__dict__ callable_group
     ∧ String.prefix "__" "a" = false
     ∧ isinstance_State callable_objects 2 = true
     ∧ StatesGroup.__init_subclass__ callable_group callable_objects
       !! 2%positive = Some (StateObj false "G:b" (Some 9%positive))).
Proof.
  split.
  - split; [left|]. do 2 (split; [reflexivity|]). reflexivity.
  - split; [right; left|]. do 2 (split; [reflexivity|]). reflexivity.
Qed.

(** C5, as stated, fails: two new [State] objects have one name, the empty
    string, and are not equal; and so are the states of two groups that have
    one [__name__] and one field name. *)
Lemma equal_names_unequal_states :
  ((let* d1 := State.__init__ in
    let* d2 := State.__init__ in
    let* n1 := State.__str__ d1 in
    let* n2 := State.__str__ d2 in
    ret (n1, n2, State.__eq__ d1 d2)) ∅).1 = Ok (EmptyString, EmptyString, false)
  ∧ ((let* d1 := State.__init__ in
      let* d2 := State.__init__ in
      (λ σ, (Ok (), StatesGroup.__init_subclass__
                      (StatesGroup.Class 10 "MyStates" [("my_state", d1)]) σ));;
      (λ σ, (Ok (), StatesGroup.__init_subclass__
                      (StatesGroup.Class 11 "MyStates" [("my_state", d2)]) σ));;
      let* n1 := State.__str__ d1 in
      let* n2 := State.__str__ d2 in
      ret (n1, n2, State.__eq__ d1 d2)) ∅).1
    = Ok ("MyStates:my_state", "MyStates:my_state", false).
Proof. split; vm_compute; reflexivity. Qed.

(** ** Dispatch *)

Section dispatch.
Import BaseMiddleware Dispatcher.
Context {update data : Type}.
Variable kind : update → string.
Implicit Types (ms : list (BaseMiddleware.t update data))
  (hs : list (handler update data)) (u : update) (d : data).

(** The PRE state logs nothing but [pre_process] hooks. *)
Lemma run_pre_events ms u : ∀ i d skip e,
  e ∈ (run_pre kind i ms u d skip).1.1 → is_pre e = true.
Proof.
  induction ms as [|m ms IH]; intros i d skip e; simpl.
  - by intros ?%elem_of_nil.
  - destruct (pre_hook kind m u) as [hook|]; [|apply IH].
    destruct (hook u d) as [[r|x] d'].
    + assert (Hrest : e ∈ (PreProcess i (Ok r)
                :: (run_pre kind (S i) ms u d'
                      match r with SkipHandler => true | _ => skip end).1.1)
              → is_pre e = true).
      { intros [->|Hin]%elem_of_cons; [done|]. by apply IH in Hin. }
      destruct r; simpl in *;
        try (destruct (run_pre kind (S i) ms u d' _) as [[evs out] d''];
             exact Hrest).
      by intros ->%list_elem_of_singleton.
    + by intros ->%list_elem_of_singleton.
Qed.

(** A [CancelUpdate] in the log means the PRE state was left cancelled. *)
Lemma run_pre_cancelled ms u : ∀ i d skip j,
  PreProcess j (Ok CancelUpdate) ∈ (run_pre kind i ms u d skip).1.1 →
  (run_pre kind i ms u d skip).1.2 = CANCELLED.
Proof.
  induction ms as [|m ms IH]; intros i d skip j; simpl.
  - by intros ?%elem_of_nil.
  - destruct (pre_hook kind m u) as [hook|]; [|apply IH].
    destruct (hook u d) as [[r|x] d'].
    + assert (Hrest : r ≠ CancelUpdate →
                PreProcess j (Ok CancelUpdate) ∈ (PreProcess i (Ok r)
                :: (run_pre kind (S i) ms u d'
                      match r with SkipHandler => true | _ => skip end).1.1)
              → (run_pre kind (S i) ms u d'
                      match r with SkipHandler => true | _ => skip end).1.2
                = CANCELLED).
      { intros Hr [[= _ ?]|Hin]%elem_of_cons; [done|]. by apply IH in Hin. }
      destruct r; simpl in *; try done;
        destruct (run_pre kind (S i) ms u d' _) as [[evs out] d''];
        by apply Hrest.
    + by intros [=]%list_elem_of_singleton.
Qed.

(** Handlers and the POST state log no [pre_process] hook. *)
Lemma run_handlers_events hs u : ∀ j d e,
  e ∈ (run_handlers j hs u d).1.1 → is_pre e = false.
Proof.
  induction hs as [|h hs IH]; intros j d e; simpl.
  - by intros ?%elem_of_nil.
  - destruct (matches h u); [|apply IH].
    destruct (call h u d) as [[r|x] d1].
    + destruct r; simpl;
        try (by intros ->%list_elem_of_singleton).
      specialize (IH (S j) d1 e).
      destruct (run_handlers (S j) hs u d1) as [[evs exc] d2].
      simpl in *. intros [->|Hin]%elem_of_cons; [done|]. by apply IH.
    + by intros ->%list_elem_of_singleton.
Qed.

Lemma run_post_events ms u exception : ∀ i d e,
  e ∈ (run_post kind i ms u d exception).1 → is_pre e = false.
Proof.
  induction ms as [|m ms IH]; intros i d e; simpl.
  - by intros ?%elem_of_nil.
  - destruct (post_hook kind m u) as [hook|]; [|apply IH].
    destruct (hook u d exception) as [r d1].
    specialize (IH (S i) d1 e).
    destruct (run_post kind (S i) ms u d1 exception) as [evs d2].
    simpl in *. destruct r; simpl.
    + intros [->|Hin]%elem_of_cons; [done|]. by apply IH.
    + intros [->|[->|Hin]%elem_of_cons]%elem_of_cons; [done..|]. by apply IH.
Qed.

(** C2.  When the log of a dispatch shows that the [pre_process] of some
    middleware returned a [CancelUpdate], it shows no handler and no
    [post_process], for any middleware. *)
Theorem cancel_update_ends_dispatch ms hs u d i :
  PreProcess i (Ok CancelUpdate) ∈ (dispatch kind ms hs u d).1 →
  (∀ j, Execute j ∉ (dispatch kind ms hs u d).1)
  ∧ (∀ i' exception, PostProcess i' exception ∉ (dispatch kind ms hs u d).1).
Proof.
  unfold dispatch.
  pose proof (run_pre_events ms u 0 d false) as Hpre.
  pose proof (run_pre_cancelled ms u 0 d false i) as Hcancel.
  destruct (run_pre kind 0 ms u d false) as [[pre out] d1] eqn:Hrun.
  simpl in *.
  assert (Hdone :
    (∀ j, Execute j ∉ pre) ∧ (∀ i' exception, PostProcess i' exception ∉ pre)).
  { split; [intros j Hin | intros i' x Hin]; by apply Hpre in Hin. }
  destruct out; simpl; try done.
  - pose proof (run_handlers_events hs u 0 d1) as Hrun'.
    destruct (run_handlers 0 hs u d1) as [[run exc] d2].
    pose proof (run_post_events ms u exc 0 d2) as Hpost.
    destruct (run_post kind 0 ms u d2 exc) as [post d3].
    simpl in *. intros Hin.
    apply elem_of_app in Hin as [Hin|Hin]; [by apply Hcancel in Hin|].
    apply elem_of_app in Hin as [Hin|Hin];
      [by apply Hrun' in Hin | by apply Hpost in Hin].
  - pose proof (run_post_events ms u None 0 d1) as Hpost.
    destruct (run_post kind 0 ms u d1 None) as [post d2].
    simpl in *. intros Hin.
    apply elem_of_app in Hin as [Hin|Hin]; [by apply Hcancel in Hin|].
    by apply Hpost in Hin.
Qed.

End dispatch.

(** A chain whose second middleware cancels. *)
Lemma cancel_update_ends_dispatch_witness :
  let log :=
    (Dispatcher.dispatch id [passing; cancelling; passing] [returning]
       EventsEnum.TEXT 0).1 in
  Dispatcher.PreProcess 1 (Ok CancelUpdate) ∈ log
  ∧ (∀ j, Dispatcher.Execute j ∉ log)
  ∧ (∀ i' exception, Dispatcher.PostProcess i' exception ∉ log).
Proof.
  assert (Hin : Dispatcher.PreProcess 1 (Ok CancelUpdate)
                ∈ (Dispatcher.dispatch id [passing; cancelling; passing]
                     [returning] EventsEnum.TEXT 0).1).
  { right. left. }
  split; [exact Hin|].
  exact (cancel_update_ends_dispatch id [passing; cancelling; passing]
           [returning] EventsEnum.TEXT 0 1 Hin).
Defined.

(** The other paths of the dispatcher, on the same middlewares. *)
Example dispatch_cancel :
  Dispatcher.dispatch id [cancelling; passing] [returning] EventsEnum.TEXT 0
  = ([Dispatcher.PreProcess 0 (Ok CancelUpdate)], 1).
Proof. reflexivity. Qed.

Example dispatch_skip :
  Dispatcher.dispatch id [skipping; passing] [returning] EventsEnum.TEXT 0
  = ([Dispatcher.PreProcess 0 (Ok SkipHandler);
      Dispatcher.PreProcess 1 (Ok RNone);
      Dispatcher.PostProcess 0 None; Dispatcher.PostProcess 1 None], 4).
Proof. reflexivity. Qed.

Example dispatch_handler_raises :
  Dispatcher.dispatch id [passing] [raising; returning] EventsEnum.TEXT 0
  = ([Dispatcher.PreProcess 0 (Ok RNone); Dispatcher.Execute 0;
      Dispatcher.PostProcess 0 (Some (Exception "boom"))], 3).
Proof. reflexivity. Qed.

(** ** What the hypotheses are for *)

(** Two stores constructed on one explicit mapping are one store. *)
Example explicit_mapping_is_shared :
  ((let* a := MemoryHandlerBackend.__init__ (Some 1%positive) in
    let* b := MemoryHandlerBackend.__init__ (Some 1%positive) in
    MemoryHandlerBackend.register_handler a (KStr "chat") 12;;
    ret (a, b)) example_world).1 = Ok (example_store, example_store)
  ∧ pending
      ((let* a := MemoryHandlerBackend.__init__ (Some 1%positive) in
        let* b := MemoryHandlerBackend.__init__ (Some 1%positive) in
        MemoryHandlerBackend.register_handler a (KStr "chat") 12) example_world).2
      example_store (KStr "chat") = Some [12].
Proof. split; vm_compute; reflexivity. Qed.

(** A mapping that binds one list object to two keys: what is registered
    under the one waits under the other as well. *)
Example shared_list_is_seen_under_both_keys :
  let w : world nat :=
    World {[ 1%positive := {[ KInt 5 := 1%positive; KInt 6 := 1%positive ]} ]}
          {[ 1%positive := [10] ]} ∅ [] in
  pending w example_store (KInt 6) = Some [10]
  ∧ pending (MemoryHandlerBackend.register_handler example_store (KInt 5) 11 w).2
      example_store (KInt 6) = Some [10; 11].
Proof. split; vm_compute; reflexivity. Qed.

(** One [State] object bound to two fields keeps the name of the last. *)
Example state_bound_twice :
  StatesGroup.__init_subclass__
    (StatesGroup.Class 9 "G" [("a", 1%positive); ("b", 1%positive)])
    {[ 1%positive := StateObj false EmptyString None ]} !! 1%positive
  = Some (StateObj false "G:b" (Some 9%positive)).
Proof. reflexivity. Qed.

(** A field whose name starts with two underscores, and a field bound to
    something that is not a [State], are passed over. *)
Example reserved_and_other_fields :
  StatesGroup.__init_subclass__
    (StatesGroup.Class 9 "G" [("__s", 1%positive); ("f", 2%positive)])
    {[ 1%positive := StateObj false EmptyString None; 2%positive := OtherObj false ]}
  = {[ 1%positive := StateObj false EmptyString None; 2%positive := OtherObj false ]}.
Proof. reflexivity. Qed.

(** Registering in a Redis store that holds nothing for the key. *)
Example redis_register_first :
  RedisHandlerBackend.register_handler example_redis (KStr "chat") 12
    example_server
  = (Ok (),
     World {[ 1%positive := ∅ ]} ∅
           (<[ "aminobot:chat" := [Byte.x80; Byte.x0c] ]>
              {[ "aminobot:5" := [Byte.x80; Byte.x0a; Byte.x0b] ]})
           [GET "aminobot:chat"; SET "aminobot:chat" [Byte.x80; Byte.x0c]]).
Proof. vm_compute. reflexivity. Qed.

(** With the client library in place the constructor returns a store. *)
Example redis_init_with_client :
  (RedisHandlerBackend.__init__ (redis_installed true) None "localhost" 6379
     0 "aminobot" None (World ∅ ∅ ∅ [] : world nat)).1 = Ok example_redis.
Proof. vm_compute. reflexivity. Qed.

(** [str] of integers. *)
Example str_negative : str (KInt (-120)) = "-120".
Proof. reflexivity. Qed.

Example str_zero : str (KInt 0) = "0".
Proof. reflexivity. Qed.

(** * More about the code *)

(** ** The memory store: how its operations compose *)

Section memory_more.
Context {handler : Type}.
Implicit Types (w : world handler) (self : HandlerBackend.t) (k : key)
  (h : handler) (d : gmap key loc).

(** What waits in a well-formed store is [None] exactly for the keys the
    [dict] does not have. *)
Lemma pending_None w self d k :
  is_store w self → dicts w !! HandlerBackend.handlers self = Some d →
  pending w self k = None ↔ d !! k = None.
Proof.
  intros (d' & Hd' & Hl) Hd. assert (d' = d) as -> by congruence.
  unfold pending. rewrite Hd. simpl.
  destruct (d !! k) as [l|] eqn:Hk; simpl; [|done].
  destruct (Hl k l Hk) as [xs Hxs]. rewrite Hxs. split; discriminate.
Qed.

(** One registration appends to what waits. *)
Lemma register_pending w self k h :
  is_store w self →
  ∃ w', MemoryHandlerBackend.register_handler self k h w = (Ok (), w')
    ∧ is_store w' self
    ∧ pending w' self k = Some (default [] (pending w self k) ++ [h])%list.
Proof.
  intros (d & Hd & Hl).
  destruct (d !! k) as [l|] eqn:Hk.
  - destruct (Hl k l Hk) as [xs Hxs].
    rewrite (register_present w self d k h l xs Hd Hk Hxs).
    eexists; split; [reflexivity|]. split.
    + exists d. simpl. split; [done|]. intros k0 l0 Hk0.
      apply lookup_insert_is_Some. destruct (decide (l = l0)); eauto.
    + unfold pending. simpl. rewrite Hd. simpl. rewrite Hk. simpl.
      by rewrite lookup_insert_eq, Hxs.
  - rewrite (register_absent w self d k h Hd Hk). cbv zeta.
    eexists; split; [reflexivity|]. split.
    + exists (<[k := fresh (dom (lists w))]> d). simpl.
      split; [apply lookup_insert_eq|]. intros k0 l0 Hk0.
      apply lookup_insert_is_Some.
      apply lookup_insert_Some in Hk0 as [[_ <-]|[_ Hk0]]; [by left|].
      destruct (decide (fresh (dom (lists w)) = l0)); eauto.
    + unfold pending. simpl. rewrite !lookup_insert_eq, Hd. simpl.
      rewrite lookup_insert_eq, Hk. simpl. by rewrite lookup_insert_eq.
Qed.

Lemma register_all_pending hs : ∀ w self k,
  is_store w self →
  ∃ w', register_all self k hs w = (Ok (), w')
    ∧ is_store w' self
    ∧ pending w' self k
      = match hs with
        | [] => pending w self k
        | _ => Some (default [] (pending w self k) ++ hs)%list
        end.
Proof.
  induction hs as [|h hs IH]; intros w self k Hs.
  - exists w. by repeat split.
  - simpl. unfold bind.
    destruct (register_pending w self k h Hs) as (w1 & -> & Hs1 & Hp1).
    destruct (IH w1 self k Hs1) as (w2 & -> & Hs2 & Hp2).
    exists w2. split; [done|]. split; [done|].
    rewrite Hp2, Hp1. destruct hs; simpl; [done|]. by rewrite <- app_assoc.
Qed.

(** X1.  In a well-formed memory store, registering the handlers [hs], at
    least one, under [k] one after another and then [get_handlers(k)] hands
    out a list that holds what waited under [k] before, followed by [hs] in
    the order of registration; nothing waits under [k] afterwards. *)
Theorem memory_register_all_then_get w self k hs :
  is_store w self →
  hs ≠ [] →
  ∃ l w',
    (register_all self k hs;; MemoryHandlerBackend.get_handlers self k) w
    = (Ok (Some l), w')
    ∧ lists w' !! l = Some (default [] (pending w self k) ++ hs)%list
    ∧ pending w' self k = None.
Proof.
  intros Hs Hne. unfold bind.
  destruct (register_all_pending hs w self k Hs) as (w1 & -> & Hs1 & Hp).
  destruct hs as [|h hs]; [done|].
  destruct Hs1 as (d & Hd & Hl).
  rewrite (get_handlers_eq w1 self d k Hd).
  unfold pending in Hp. rewrite Hd in Hp. simpl in Hp.
  destruct (d !! k) as [l|] eqn:Hk; [|done]. simpl in Hp.
  exists l. eexists. split; [reflexivity|]. split; [exact Hp|].
  unfold pending. simpl. rewrite lookup_insert_eq. simpl.
  by rewrite lookup_delete_eq.
Qed.

(** X2.  [clear_handlers(k)] on a memory store does not raise, whatever is
    stored; afterwards nothing waits under [k], [get_handlers(k)] returns
    [None], and both it and a second [clear_handlers(k)] leave the world as
    it is. *)
Theorem memory_clear_then_get w self d k :
  dicts w !! HandlerBackend.handlers self = Some d →
  ∃ w', MemoryHandlerBackend.clear_handlers self k w = (Ok (), w')
    ∧ pending w' self k = None
    ∧ MemoryHandlerBackend.get_handlers self k w' = (Ok None, w')
    ∧ MemoryHandlerBackend.clear_handlers self k w' = (Ok (), w').
Proof.
  intros Hd. rewrite (clear_handlers_eq w self d k Hd).
  eexists; split; [reflexivity|].
  assert (Hd' : <[HandlerBackend.handlers self := delete k d]> (dicts w)
                !! HandlerBackend.handlers self = Some (delete k d))
    by apply lookup_insert_eq.
  assert (Hk' : delete k d !! k = None) by apply lookup_delete_eq.
  split; [|split].
  - unfold pending. simpl. rewrite Hd'. simpl. by rewrite Hk'.
  - erewrite get_handlers_eq by exact Hd'. rewrite Hk'.
    by erewrite pop_absent_same by done.
  - erewrite clear_handlers_eq by exact Hd'.
    by erewrite pop_absent_same by done.
Qed.

End memory_more.

(** ** The memory store: the list that was handed out *)

Section memory_detached.
Context {handler : Type}.
Implicit Types (w : world handler) (self : HandlerBackend.t) (k : key)
  (h : handler) (d : gmap key loc) (l : loc).

(** A list object that the store does not bind stays as it is, and stays
    unbound, under every request. *)
Lemma perform_detached w self r l :
  is_store w self → ¬ holds w self l → is_Some (lists w !! l) →
  ∃ w', perform self r w = (Ok (), w')
    ∧ is_store w' self ∧ ¬ holds w' self l
    ∧ lists w' !! l = lists w !! l.
Proof.
  intros (d & Hd & Hl) Hnot Hsome.
  assert (Hpop : ∀ k,
    let w' := World (<[HandlerBackend.handlers self := delete k d]> (dicts w))
                    (lists w) (redis_db w) (redis_log w) in
    is_store w' self ∧ ¬ holds w' self l ∧ lists w' !! l = lists w !! l).
  { intros k w'. subst w'. split; [|split; [|done]].
    - exists (delete k d). simpl. split; [apply lookup_insert_eq|].
      intros k0 l0 Hk0. apply lookup_delete_Some in Hk0 as [_ Hk0]. eauto.
    - intros (d' & k0 & Hd' & Hk0). simpl in Hd'.
      rewrite lookup_insert_eq in Hd'. simplify_eq.
      apply lookup_delete_Some in Hk0 as [_ Hk0].
      apply Hnot. by exists d, k0. }
  destruct r as [k h | k | k]; simpl.
  - destruct (d !! k) as [l0|] eqn:Hk.
    + destruct (Hl k l0 Hk) as [xs Hxs].
      rewrite (register_present w self d k h l0 xs Hd Hk Hxs).
      eexists; split; [reflexivity|]. split; [|split].
      * exists d. simpl. split; [done|]. intros k1 l1 Hk1.
        apply lookup_insert_is_Some. destruct (decide (l0 = l1)); eauto.
      * intros (d' & k1 & Hd' & Hk1). simpl in Hd'. simplify_eq.
        apply Hnot. by exists d, k1.
      * simpl. apply lookup_insert_ne. intros ->.
        apply Hnot. by exists d, k.
    + rewrite (register_absent w self d k h Hd Hk). cbv zeta.
      set (l0 := fresh (dom (lists w))).
      assert (Hfresh : lists w !! l0 = None).
      { apply not_elem_of_dom, is_fresh. }
      assert (Hne : l0 ≠ l).
      { intros ->. destruct Hsome as [? ?]. congruence. }
      eexists; split; [reflexivity|]. split; [|split].
      * exists (<[k := l0]> d). simpl. split; [apply lookup_insert_eq|].
        intros k1 l1 Hk1. apply lookup_insert_is_Some.
        apply lookup_insert_Some in Hk1 as [[_ <-]|[_ Hk1]]; [by left|].
        destruct (decide (l0 = l1)); eauto.
      * intros (d' & k1 & Hd' & Hk1). simpl in Hd'.
        rewrite lookup_insert_eq in Hd'. simplify_eq.
        apply lookup_insert_Some in Hk1 as [[_ ?]|[_ Hk1]]; [done|].
        apply Hnot. by exists d, k1.
      * simpl. by apply lookup_insert_ne.
  - rewrite (clear_handlers_eq w self d k Hd).
    eexists; split; [reflexivity|]. apply Hpop.
  - unfold bind. rewrite (get_handlers_eq w self d k Hd). unfold ret.
    eexists; split; [reflexivity|]. apply Hpop.
Qed.

Lemma serve_memory_detached self l rs : ∀ w,
  is_store w self → ¬ holds w self l → is_Some (lists w !! l) →
  ∃ got w', serve_memory self rs w = (Ok got, w')
    ∧ lists w' !! l = lists w !! l.
Proof.
  induction rs as [|r rs IH]; intros w Hs Hnot Hsome.
  - exists [], w. by split.
  - destruct (perform_detached w self r l Hs Hnot Hsome)
      as (w1 & Hrun & Hs1 & Hnot1 & Hl1).
    assert (Hsome1 : is_Some (lists w1 !! l)) by by rewrite Hl1.
    destruct (IH w1 Hs1 Hnot1 Hsome1) as (got & w2 & Hrest & Hl2).
    destruct r as [k h | k | k]; simpl in *; unfold bind in *.
    + rewrite Hrun, Hrest. exists got, w2. split; [done|]. congruence.
    + rewrite Hrun, Hrest. exists got, w2. split; [done|]. congruence.
    + destruct Hs as (d & Hd & Hl).
      rewrite (get_handlers_eq w self d k Hd) in *. unfold ret in Hrun.
      injection Hrun as <-. unfold list_contents. simpl.
      destruct (d !! k) as [l0|] eqn:Hk.
      * destruct (Hl k l0 Hk) as [xs ->]. rewrite Hrest.
        exists (Some xs :: got), w2. split; [done|]. congruence.
      * rewrite Hrest. exists (None :: got), w2. split; [done|]. congruence.
Qed.

(** X3.  The list that [get_handlers(k)] hands out of a well-formed memory
    store whose lists are not shared is the caller's alone: whatever is
    requested of the store afterwards, no request raises and the list keeps
    its content. *)
Theorem memory_handed_out_list_is_detached w self k l w1 rs :
  is_store w self →
  unshared w self →
  MemoryHandlerBackend.get_handlers self k w = (Ok (Some l), w1) →
  ∃ got w2, serve_memory self rs w1 = (Ok got, w2)
    ∧ lists w2 !! l = lists w !! l.
Proof.
  intros Hs Hun Hget.
  destruct (perform_other_key w self (Get k) Hs Hun)
    as (w1' & Hrun & _ & Hs1 & _).
  destruct Hs as (d & Hd & Hl).
  simpl in Hrun. unfold bind, ret in Hrun.
  rewrite (get_handlers_eq w self d k Hd) in Hget, Hrun.
  injection Hget as Hk <-. injection Hrun as <-.
  assert (Hnot : ¬ holds
    (World (<[HandlerBackend.handlers self := delete k d]> (dicts w))
           (lists w) (redis_db w) (redis_log w)) self l).
  { intros (d' & k0 & Hd' & Hk0). simpl in Hd'.
    rewrite lookup_insert_eq in Hd'. simplify_eq.
    apply lookup_delete_Some in Hk0 as [Hne Hk0].
    apply Hne. by apply (Hun d k k0 l). }
  apply (serve_memory_detached self l rs _ Hs1 Hnot). simpl. eauto.
Qed.

(** X5.  A memory store constructed on an explicit mapping adopts it and
    copies nothing: two stores constructed on one well-formed mapping are
    one store, and what is registered through the one waits in the
    other. *)
Theorem memory_explicit_mapping_is_shared w (mapping : loc) k h :
  is_store w (HandlerBackend.Build mapping) →
  ∃ w',
    (let* a := MemoryHandlerBackend.__init__ (Some mapping) in
     let* b := MemoryHandlerBackend.__init__ (Some mapping) in
     MemoryHandlerBackend.register_handler a k h;; ret (a, b)) w
    = (Ok (HandlerBackend.Build mapping, HandlerBackend.Build mapping), w')
    ∧ pending w' (HandlerBackend.Build mapping) k
      = Some (default [] (pending w (HandlerBackend.Build mapping) k)
              ++ [h])%list.
Proof.
  intros Hs.
  destruct (register_pending w _ k h Hs) as (w' & Hreg & _ & Hp).
  exists w'. split; [|exact Hp].
  unfold bind, MemoryHandlerBackend.__init__, HandlerBackend.__init__, ret.
  by rewrite Hreg.
Qed.

End memory_detached.

(** ** The Redis store: how its operations compose *)

(** Two names built with prefixes that have no colon determine the prefix
    and [str(k)]. *)
Lemma app_pivot_inj {A} (c : A) (l1 l2 r1 r2 : list A) :
  c ∉ l1 → c ∉ l2 → (l1 ++ c :: r1 = l2 ++ c :: r2)%list →
  l1 = l2 ∧ r1 = r2.
Proof.
  revert l2. induction l1 as [|a l1 IH]; intros [|b l2] H1 H2 Heq;
    simpl in *; simplify_eq;
    first [ done
          | by (exfalso; apply H1; left)
          | by (exfalso; apply H2; left)
          | idtac ].
  destruct (IH l2) as [-> ->]; [| |done..].
  - intros Hin. apply H1. by right.
  - intros Hin. apply H2. by right.
Qed.

Lemma list_ascii_of_string_inj (a b : string) :
  list_ascii_of_string a = list_ascii_of_string b → a = b.
Proof.
  intros Heq. rewrite <- (string_of_list_ascii_of_string a),
                      <- (string_of_list_ascii_of_string b).
  by rewrite Heq.
Qed.

(** X10.  The prefix is a name space.  Two Redis stores whose prefixes have
    no colon never share a name on the server unless they have one prefix
    and the keys have one [str]; so with two different such prefixes,
    whatever the one store does, and whether it returns or raises, the
    payloads of the other stay as they are. *)
Theorem redis_names_of_two_stores {handler : Type} `{!Pickle handler}
    (self other : RedisHandlerBackend.t) (k1 k2 : key) :
  no_colon (RedisHandlerBackend.prefix self) →
  no_colon (RedisHandlerBackend.prefix other) →
  (RedisHandlerBackend._key self k1 = RedisHandlerBackend._key other k2 →
   RedisHandlerBackend.prefix self = RedisHandlerBackend.prefix other
   ∧ str k1 = str k2)
  ∧ (RedisHandlerBackend.prefix self ≠ RedisHandlerBackend.prefix other →
     ∀ (w : world handler) (h : handler),
       let name := RedisHandlerBackend._key other k2 in
       redis_db (RedisHandlerBackend.register_handler self k1 h w).2 !! name
       = redis_db w !! name
       ∧ redis_db (RedisHandlerBackend.clear_handlers self k1 w).2 !! name
         = redis_db w !! name
       ∧ redis_db (RedisHandlerBackend.get_handlers self k1 w).2 !! name
         = redis_db w !! name).
Proof.
  intros H1 H2.
  assert (Hinj : RedisHandlerBackend._key self k1
                 = RedisHandlerBackend._key other k2 →
                 RedisHandlerBackend.prefix self
                 = RedisHandlerBackend.prefix other ∧ str k1 = str k2).
  { unfold no_colon, RedisHandlerBackend._key, join in *. intros Heq.
    apply (f_equal list_ascii_of_string) in Heq.
    rewrite !list_ascii_of_append in Heq. simpl in Heq.
    apply app_pivot_inj in Heq as [Hp Hs]; [|done..].
    split; by apply list_ascii_of_string_inj. }
  split; [exact Hinj|].
  intros Hne w h name. apply redis_other_name.
  intros Heq. by apply Hne, Hinj.
Qed.

Section redis_more.
Context {handler : Type} `{!Pickle handler}.
Implicit Types (w : world handler) (self : RedisHandlerBackend.t) (k : key)
  (h : handler) (v p : bytes).

(** One registration of a handler that [pickle] takes there and back. *)
Lemma redis_register_faithful self k h w old :
  reads w self k old → faithful (old ++ [h])%list →
  ∃ p w', RedisHandlerBackend.register_handler self k h w = (Ok (), w')
    ∧ redis_db w' = <[RedisHandlerBackend._key self k := p]> (redis_db w)
    ∧ p ≠ [] ∧ pickle_loads p = Ok (old ++ [h])%list.
Proof.
  intros Hread (p & Hdumps & Hp & Hloads). exists p.
  redis_unfold. simpl.
  destruct Hread as [[Hfalse ->] | (v & -> & Hv & Hold)].
  - destruct (redis_db w !! RedisHandlerBackend._key self k) as [[|b v]|];
      [|done|]; simpl in *; rewrite Hdumps; eauto.
  - destruct v as [|b v]; [done|]. rewrite Hold. simpl. rewrite Hdumps.
    eauto.
Qed.

Lemma redis_register_all_faithful self k hs : ∀ w old,
  reads w self k old → hs ≠ [] →
  (∀ n, 0 < n ≤ length hs → faithful (old ++ take n hs)%list) →
  ∃ p w', redis_register_all self k hs w = (Ok (), w')
    ∧ redis_db w' = <[RedisHandlerBackend._key self k := p]> (redis_db w)
    ∧ p ≠ [] ∧ pickle_loads p = Ok (old ++ hs)%list.
Proof.
  induction hs as [|h hs IH]; intros w old Hread Hne Hf; [done|].
  simpl. unfold bind at 1.
  destruct (redis_register_faithful self k h w old Hread)
    as (p1 & w1 & -> & Hdb1 & Hp1 & Hl1).
  { apply (Hf 1). simpl. lia. }
  destruct hs as [|h' hs].
  - exists p1, w1. by repeat split.
  - destruct (IH w1 (old ++ [h])%list) as (p2 & w2 & Hrun & Hdb2 & Hp2 & Hl2).
    + right. exists p1. rewrite Hdb1, lookup_insert_eq. by repeat split.
    + done.
    + intros n Hn. rewrite <- app_assoc. apply (Hf (S n)). simpl in *. lia.
    + exists p2, w2. split; [exact Hrun|].
      split; [by rewrite Hdb2, Hdb1, insert_insert_eq|]. split; [done|].
      by rewrite <- app_assoc in Hl2.
Qed.

(** X6.  Let the server hold the list [old] for [k] (the empty list when it
    holds nothing), and let [pickle] take every list that gets written
    there and back.  Registering the handlers [hs], at least one, one after
    another and then [get_handlers(k)] returns [old] followed by [hs]; the
    name is gone from the server and nothing else has changed there. *)
Theorem redis_register_all_then_get self k hs w old :
  reads w self k old →
  hs ≠ [] →
  (∀ n, 0 < n ≤ length hs → faithful (old ++ take n hs)%list) →
  ∃ w',
    (redis_register_all self k hs;; RedisHandlerBackend.get_handlers self k) w
    = (Ok (Some (old ++ hs)%list), w')
    ∧ redis_db w' = delete (RedisHandlerBackend._key self k) (redis_db w).
Proof.
  intros Hread Hne Hf. unfold bind at 1.
  destruct (redis_register_all_faithful self k hs w old Hread Hne Hf)
    as (p & w1 & -> & Hdb & Hp & Hloads).
  redis_unfold. simpl. rewrite Hdb, lookup_insert_eq.
  destruct p as [|b p]; [done|]. rewrite Hloads. simpl.
  eexists. split; [reflexivity|]. simpl. by rewrite delete_insert_eq.
Qed.

(** X7.  [clear_handlers(k)] of a Redis store sends one delete of the name
    of [k]; a [get_handlers(k)] that follows returns [None] and sends one
    read; where nothing was stored for [k] the server's table is as
    before. *)
Theorem redis_clear_then_get self k w :
  let name := RedisHandlerBackend._key self k in
  (RedisHandlerBackend.clear_handlers self k;;
   RedisHandlerBackend.get_handlers self k) w
  = (Ok None,
     World (dicts w) (lists w) (delete name (redis_db w))
           (redis_log w ++ [DEL name; GET name])%list)
  ∧ (redis_db w !! name = None → delete name (redis_db w) = redis_db w).
Proof.
  intros name. split.
  - redis_unfold. simpl. fold name. rewrite lookup_delete_eq.
    by rewrite <- app_assoc.
  - apply delete_id.
Qed.

(** X8.  A registration that fails writes nothing: when the stored payload
    does not deserialize, or the list with the new handler does not
    serialize, [register_handler] raises that exception after its read, and
    the server's table is as before. *)
Theorem redis_register_failure_keeps_payload self k h w e :
  let name := RedisHandlerBackend._key self k in
  (∃ v, redis_db w !! name = Some v ∧ v ≠ [] ∧ pickle_loads v = Raise e)
  ∨ (∃ old, reads w self k old ∧ pickle_dumps (old ++ [h])%list = Raise e) →
  RedisHandlerBackend.register_handler self k h w
  = (Raise e,
     World (dicts w) (lists w) (redis_db w) (redis_log w ++ [GET name])%list).
Proof.
  intros name Hfail. subst name. redis_unfold. simpl.
  destruct Hfail as [(v & -> & Hv & Hloads) | (old & Hread & Hdumps)].
  - destruct v as [|b v]; [done|]. by rewrite Hloads.
  - destruct Hread as [[Hfalse ->] | (v & Hv & Hne & Hold)].
    + destruct (redis_db w !! RedisHandlerBackend._key self k) as [[|b v]|];
        [|done|]; simpl in *; by rewrite Hdumps.
    + rewrite Hv. destruct v as [|b v]; [done|]. rewrite Hold. simpl.
      by rewrite Hdumps.
Qed.

(** X9.  A Redis store never uses the mapping that its constructor takes:
    whatever they return or raise, its three operations leave every [dict]
    and every [list] object as it is. *)
Theorem redis_leaves_heap self k h w :
  (dicts (RedisHandlerBackend.register_handler self k h w).2 = dicts w
   ∧ lists (RedisHandlerBackend.register_handler self k h w).2 = lists w)
  ∧ (dicts (RedisHandlerBackend.clear_handlers self k w).2 = dicts w
     ∧ lists (RedisHandlerBackend.clear_handlers self k w).2 = lists w)
  ∧ (dicts (RedisHandlerBackend.get_handlers self k w).2 = dicts w
     ∧ lists (RedisHandlerBackend.get_handlers self k w).2 = lists w).
Proof.
  redis_unfold. simpl. split; [|split; [done|]].
  - destruct (redis_db w !! RedisHandlerBackend._key self k) as [[|b v]|];
      simpl; repeat (case_match; simpl); simplify_eq; done.
  - destruct (redis_db w !! RedisHandlerBackend._key self k) as [[|b v]|];
      simpl; repeat (case_match; simpl); simplify_eq; done.
Qed.

End redis_more.

(** ** The two stores side by side *)

Section side_by_side.
Context {handler : Type} `{!Pickle handler}.
Variable mem : HandlerBackend.t.
Variable red : RedisHandlerBackend.t.
Implicit Types (wm wr : world handler) (k : key) (h : handler).

(** The server's table after [clear_handlers] and after [get_handlers]. *)
Lemma redis_clear_db k wr :
  ∃ wr', RedisHandlerBackend.clear_handlers red k wr = (Ok (), wr')
    ∧ redis_db wr' = delete (RedisHandlerBackend._key red k) (redis_db wr).
Proof. redis_unfold. eauto. Qed.

Lemma redis_get_nothing k wr :
  truthy (redis_db wr !! RedisHandlerBackend._key red k) = false →
  ∃ wr', RedisHandlerBackend.get_handlers red k wr = (Ok None, wr')
    ∧ redis_db wr' = redis_db wr.
Proof.
  intros Hfalse. redis_unfold. simpl.
  destruct (redis_db wr !! RedisHandlerBackend._key red k) as [[|b v]|];
    [|done|]; eauto.
Qed.

Lemma redis_get_payload k wr p xs :
  redis_db wr !! RedisHandlerBackend._key red k = Some p → p ≠ [] →
  pickle_loads p = Ok xs →
  ∃ wr', RedisHandlerBackend.get_handlers red k wr = (Ok (Some xs), wr')
    ∧ redis_db wr' = delete (RedisHandlerBackend._key red k) (redis_db wr).
Proof.
  intros Hp Hne Hloads. redis_unfold. simpl. rewrite Hp.
  destruct p as [|b p]; [done|]. rewrite Hloads. simpl. eauto.
Qed.

(** Agreement on a key only looks at what waits under it and at the payload
    under its name. *)
Lemma agree_frame wm wm' wr wr' k :
  pending wm' mem k = pending wm mem k →
  redis_db wr' !! RedisHandlerBackend._key red k
  = redis_db wr !! RedisHandlerBackend._key red k →
  agree wm mem wr red k → agree wm' mem wr' red k.
Proof. unfold agree. by intros -> ->. Qed.

(** What [get_handlers] of the memory store hands out is what waited. *)
Lemma memory_get_contents wm k :
  is_store wm mem →
  ∃ wm', (let* handlers := MemoryHandlerBackend.get_handlers mem k in
          list_contents handlers) wm = (Ok (pending wm mem k), wm')
    ∧ perform mem (Get k) wm = (Ok (), wm')
    ∧ pending wm' mem k = None.
Proof.
  intros (d & Hd & Hl). simpl. unfold bind, ret.
  rewrite (get_handlers_eq wm mem d k Hd). unfold list_contents, pending.
  simpl. rewrite Hd. simpl.
  assert (Hgone : ∀ ls : gmap loc (list handler),
    <[HandlerBackend.handlers mem := delete k d]> (dicts wm)
    !! HandlerBackend.handlers mem ≫= (λ d0, d0 !! k ≫= λ l, ls !! l) = None).
  { intros ls. rewrite lookup_insert_eq. simpl. by rewrite lookup_delete_eq. }
  destruct (d !! k) as [l|] eqn:Hk; simpl.
  - destruct (Hl k l Hk) as [xs ->]. eexists. by repeat split.
  - eexists. by repeat split.
Qed.

Lemma memory_clear_pending wm k :
  is_store wm mem →
  ∃ wm', perform mem (Clear k) wm = (Ok (), wm')
    ∧ pending wm' mem k = None.
Proof.
  intros (d & Hd & Hl). simpl.
  rewrite (clear_handlers_eq wm mem d k Hd). eexists; split; [done|].
  unfold pending. simpl. rewrite lookup_insert_eq. simpl.
  by rewrite lookup_delete_eq.
Qed.

(** Two keys with different [str] have different names on the server. *)
Lemma names_differ (K : key → Prop) k k2 :
  (∀ k1 k2, K k1 → K k2 → str k1 = str k2 → k1 = k2) →
  K k → K k2 → k ≠ k2 →
  RedisHandlerBackend._key red k ≠ RedisHandlerBackend._key red k2.
Proof. intros Hinj Hk Hk2 Hne Heq. apply Hne, Hinj; [done..|]. by apply (key_inj red). Qed.

(** X11.  The two stores are interchangeable.  Let [pickle] take every list
    there and back, let the keys in use have different [str], and let the
    server hold for every such key what a well-formed memory store without
    shared lists holds for it.  Then every sequence of [register_handler],
    [clear_handlers] and [get_handlers] on these keys runs without raising
    on both stores, and every [get_handlers] returns the same handlers, in
    the same order, from the one and from the other. *)
Theorem memory_and_redis_agree (K : key → Prop) rs wm wr :
  (∀ l : list handler, faithful l) →
  (∀ k1 k2, K k1 → K k2 → str k1 = str k2 → k1 = k2) →
  Forall (λ r, K (request_key r)) rs →
  is_store wm mem →
  unshared wm mem →
  (∀ k, K k → agree wm mem wr red k) →
  ∃ got wm' wr',
    serve_memory mem rs wm = (Ok got, wm')
    ∧ serve_redis red rs wr = (Ok got, wr').
Proof.
  intros Hfaithful Hinj HK. revert wm wr.
  induction HK as [|r rs Hr HK IH]; intros wm wr Hs Hun Hagree.
  - exists [], wm, wr. by split.
  - destruct (perform_other_key wm mem r Hs Hun)
      as (wm1 & Hrun & Hframe & Hs1 & Hun1).
    assert (Hstep : ∀ wr1,
      pending wm1 mem (request_key r)
      = match r with
        | Register k h => Some (default [] (pending wm mem k) ++ [h])%list
        | _ => None
        end →
      (match pending wm1 mem (request_key r) with
       | None => truthy (redis_db wr1
                         !! RedisHandlerBackend._key red (request_key r))
                 = false
       | Some xs =>
           ∃ p, redis_db wr1 !! RedisHandlerBackend._key red (request_key r)
                = Some p ∧ p ≠ [] ∧ pickle_loads p = Ok xs
       end) →
      (∀ k2, K k2 → request_key r ≠ k2 →
         redis_db wr1 !! RedisHandlerBackend._key red k2
         = redis_db wr !! RedisHandlerBackend._key red k2) →
      ∃ got wm' wr',
        serve_memory mem rs wm1 = (Ok got, wm')
        ∧ serve_redis red rs wr1 = (Ok got, wr')).
    { intros wr1 _ Hk Hother. apply IH; [done..|]. intros k2 Hk2.
      destruct (decide (request_key r = k2)) as [<-|Hne].
      - exact Hk.
      - apply (agree_frame wm wm1 wr wr1); auto. }
    destruct r as [k h | k | k]; simpl in Hr, Hrun, Hframe, Hstep.
    + (* register *)
      destruct (register_pending wm mem k h Hs) as (wm1' & Hreg & _ & Hp).
      assert (wm1' = wm1) as -> by congruence.
      assert (Hread : reads wr red k (default [] (pending wm mem k))).
      { specialize (Hagree k Hr). unfold agree in Hagree.
        destruct (pending wm mem k) as [xs|]; [by right | by left]. }
      destruct (redis_register_faithful red k h wr _ Hread (Hfaithful _))
        as (p & wr1 & Hredis & Hdb & Hne & Hloads).
      destruct (Hstep wr1) as (got & wm' & wr' & Hm & Hrd).
      * exact Hp.
      * rewrite Hp. exists p. rewrite Hdb, lookup_insert_eq. by repeat split.
      * intros k2 Hk2 Hne2. rewrite Hdb. apply lookup_insert_ne.
        by apply (names_differ K).
      * exists got, wm', wr'. simpl. unfold bind.
        by rewrite Hrun, Hredis, Hm, Hrd.
    + (* clear *)
      destruct (memory_clear_pending wm k Hs) as (wm1' & Hclear & Hp).
      assert (wm1' = wm1) as -> by (simpl in Hclear; congruence).
      destruct (redis_clear_db k wr) as (wr1 & Hredis & Hdb).
      destruct (Hstep wr1) as (got & wm' & wr' & Hm & Hrd).
      * exact Hp.
      * by rewrite Hp, Hdb, lookup_delete_eq.
      * intros k2 Hk2 Hne2. rewrite Hdb. apply lookup_delete_ne.
        by apply (names_differ K).
      * exists got, wm', wr'. simpl. unfold bind.
        by rewrite Hrun, Hredis, Hm, Hrd.
    + (* get *)
      destruct (memory_get_contents wm k Hs) as (wm1' & Hget & Hperf & Hp).
      assert (wm1' = wm1) as -> by (simpl in Hperf; congruence).
      specialize (Hagree k Hr). unfold agree in Hagree.
      assert (Hredis : ∃ wr1,
        RedisHandlerBackend.get_handlers red k wr
        = (Ok (pending wm mem k), wr1)
        ∧ truthy (redis_db wr1 !! RedisHandlerBackend._key red k) = false
        ∧ ∀ k2, K k2 → k ≠ k2 →
            redis_db wr1 !! RedisHandlerBackend._key red k2
            = redis_db wr !! RedisHandlerBackend._key red k2).
      { destruct (pending wm mem k) as [xs|].
        - destruct Hagree as (p & Hpay & Hne & Hloads).
          destruct (redis_get_payload k wr p xs Hpay Hne Hloads)
            as (wr1 & Hg & Hdb).
          exists wr1. split; [done|]. rewrite Hdb. split.
          + by rewrite lookup_delete_eq.
          + intros k2 Hk2 Hne2. apply lookup_delete_ne.
            by apply (names_differ K).
        - destruct (redis_get_nothing k wr Hagree) as (wr1 & Hg & Hdb).
          exists wr1. split; [done|]. rewrite Hdb. by split. }
      destruct Hredis as (wr1 & Hg & Hgone & Hother).
      destruct (Hstep wr1) as (got & wm' & wr' & Hm & Hrd).
      * exact Hp.
      * by rewrite Hp.
      * exact Hother.
      * exists (pending wm mem k :: got), wm', wr'. simpl.
        simpl in Hget. unfold bind in *.
        destruct (MemoryHandlerBackend.get_handlers mem k wm)
          as [[o|e] w0]; [|done].
        rewrite Hget. unfold ret. by rewrite Hm, Hg, Hrd.
Qed.

End side_by_side.

(** ** States: what finalization changes and what it leaves *)

Section states_more.
Import StatesGroup.
Implicit Types (σ : objects) (c : class) (value : loc).

(** The condition of the loop, on the objects as they are. *)
Lemma visit_unqualified c name value σ :
  String.prefix "__" name = true ∨ callable σ value = true
  ∨ isinstance_State σ value = false →
  visit c (name, value) σ = σ.
Proof.
  intros Hcond. unfold visit.
  destruct Hcond as [H | [H | H]]; rewrite H; simpl;
    by rewrite ?andb_false_r.
Qed.

Lemma visit_dom c item σ : dom (visit c item σ) = dom σ.
Proof.
  destruct item as [name value]. unfold visit.
  destruct (_ && _ && _); [|done]. unfold set_name_group.
  destruct (σ !! value) as [[cb nm g|cb]|] eqn:Hv; [|done..].
  apply dom_insert_lookup_L. eauto.
Qed.

Lemma visit_all_dom c items : ∀ σ, dom (visit_all c items σ) = dom σ.
Proof.
  induction items as [|item items IH]; intros σ; simpl; [done|].
  by rewrite IH, visit_dom.
Qed.

Lemma visit_all_unqualified c items v : ∀ σ,
  (∀ name, (name, v) ∈ items →
     String.prefix "__" name = true ∨ callable σ v = true
     ∨ isinstance_State σ v = false) →
  visit_all c items σ !! v = σ !! v.
Proof.
  induction items as [|[name value] items IH]; intros σ Hcond; [done|].
  cbn [visit_all]. rewrite IH.
  - destruct (decide (value = v)) as [->|Hne]; [|by apply visit_other].
    rewrite visit_unqualified; [done|]. apply Hcond. left.
  - intros name' Hin.
    destruct (visit_kind c (name, value) σ v) as [-> ->].
    apply Hcond. by right.
Qed.

(** X12.  Finalization of a group creates and deletes no object, changes of
    no object whether it is a [State] or callable, and leaves every object
    as it is unless a field binds it to a name without the two leading
    underscores and it is a [State] instance that is not callable: objects
    that the class body does not bind, objects that are not states, and
    states behind reserved names keep their name and their group. *)
Theorem init_subclass_leaves_the_rest c σ :
  dom (__init_subclass__ c σ) = dom σ
  ∧ (∀ v, isinstance_State (__init_subclass__ c σ) v = isinstance_State σ v
          ∧ callable (__init_subclass__ c σ) v = callable σ v)
  ∧ (∀ v, (∀ name, (name, v) ∈ __dict__ c →
             String.prefix "__" name = true ∨ callable σ v = true
             ∨ isinstance_State σ v = false) →
          __init_subclass__ c σ !! v = σ !! v).
Proof.
  unfold __init_subclass__. split; [apply visit_all_dom|]. split.
  - intros v. apply visit_all_kind.
  - intros v. apply visit_all_unqualified.
Qed.

(** The last field that binds a state names it. *)
Lemma visit_all_last c σ before s value after :
  String.prefix "__" s = false →
  isinstance_State σ value = true → callable σ value = false →
  (∀ s', (s', value) ∉ after) →
  visit_all c (before ++ (s, value) :: after) σ !! value
  = Some (StateObj false (__name__ c ++ ":" ++ s) (Some (cls c))).
Proof.
  intros Hs Hinst Hcall Hlater.
  change (before ++ (s, value) :: after)%list
    with (before ++ [(s, value)] ++ after)%list.
  rewrite app_assoc, !visit_all_app. rewrite visit_all_other by done.
  simpl. destruct (visit_all_kind c before σ value) as [Hi Hc].
  apply visit_state; congruence.
Qed.

(** X13.  A state that one group has named and that the class body of a
    second group binds again belongs to the second group from then on: it
    has the name that the second group gives it and the second group as its
    group, whatever the first made of it. *)
Theorem later_group_takes_the_state c1 c2 σ before s value after :
  __dict__ c2 = (before ++ (s, value) :: after)%list →
  String.prefix "__" s = false →
  isinstance_State σ value = true →
  callable σ value = false →
  (∀ s', (s', value) ∉ after) →
  __init_subclass__ c2 (__init_subclass__ c1 σ) !! value
  = Some (StateObj false (__name__ c2 ++ ":" ++ s) (Some (cls c2))).
Proof.
  intros Hdict Hs Hinst Hcall Hlater.
  unfold __init_subclass__ at 1. rewrite Hdict.
  destruct (visit_all_kind c1 (__dict__ c1) σ value) as [Hi Hc].
  apply visit_all_last; [done| | |done]; unfold __init_subclass__; congruence.
Qed.


(** X15.  The [str] of a state made by [State()] and bound in the class
    body of a group to the field [s], and to no later field, is the name of
    the group, a colon and [s], once the group is finalized. *)
Theorem str_of_adopted_state c σ self σ1 before s after :
  State.__init__ σ = (Ok self, σ1) →
  __dict__ c = (before ++ (s, self) :: after)%list →
  String.prefix "__" s = false →
  (∀ s', (s', self) ∉ after) →
  (State.__str__ self (__init_subclass__ c σ1)).1
  = Ok (__name__ c ++ ":" ++ s).
Proof.
  intros Hinit Hdict Hs Hlater. unfold State.__init__ in Hinit.
  injection Hinit as <- <-.
  unfold State.__str__, __init_subclass__. rewrite Hdict.
  rewrite (visit_all_last c _ before s _ after Hs); [done| | |done].
  - unfold isinstance_State. by rewrite lookup_insert_eq.
  - unfold callable. by rewrite lookup_insert_eq.
Qed.

(** Two items that bind two objects can be visited in either order. *)
Lemma visit_comm c n1 v1 n2 v2 σ :
  v1 ≠ v2 →
  visit c (n1, v1) (visit c (n2, v2) σ) = visit c (n2, v2) (visit c (n1, v1) σ).
Proof.
  intros Hne.
  destruct (visit_kind c (n2, v2) σ v1) as [Hi1 Hc1].
  destruct (visit_kind c (n1, v1) σ v2) as [Hi2 Hc2].
  unfold visit in *. rewrite Hi1, Hc1, Hi2, Hc2.
  destruct (negb (String.prefix "__" n1) && negb (callable σ v1)
            && isinstance_State σ v1) eqn:E1;
    destruct (negb (String.prefix "__" n2) && negb (callable σ v2)
              && isinstance_State σ v2) eqn:E2; try done.
  unfold set_name_group.
  destruct (σ !! v1) as [[cb1 nm1 g1|cb1]|] eqn:Hv1;
    destruct (σ !! v2) as [[cb2 nm2 g2|cb2]|] eqn:Hv2;
    rewrite ?lookup_insert_ne, ?Hv1, ?Hv2 by done; try done.
  by apply insert_insert_ne.
Qed.

Lemma visit_all_perm c items items' :
  items ≡ₚ items' → NoDup items.*2 →
  ∀ σ, visit_all c items' σ = visit_all c items σ.
Proof.
  induction 1 as [|[n v] l l' Hperm IH|[n1 v1] [n2 v2] l|l l' l'' H1 IH1 H2 IH2];
    intros Hnodup σ.
  - done.
  - rewrite fmap_cons in Hnodup. apply NoDup_cons in Hnodup as [_ Hnodup].
    cbn [visit_all]. by apply IH.
  - rewrite !fmap_cons in Hnodup. apply NoDup_cons in Hnodup as [Hnot _].
    cbn [visit_all]. rewrite visit_comm; [done|].
    simpl in Hnot. intros ->. apply Hnot. left.
  - rewrite IH2, IH1; [done..|]. by rewrite <- H1.
Qed.

(** X16.  When no object is bound to two fields of the class body, the
    order of the fields does not matter to finalization. *)
Theorem init_subclass_order c c' σ :
  cls c' = cls c → __name__ c' = __name__ c →
  __dict__ c ≡ₚ __dict__ c' →
  NoDup (__dict__ c).*2 →
  __init_subclass__ c' σ = __init_subclass__ c σ.
Proof.
  intros Hcls Hname Hperm Hnodup. unfold __init_subclass__.
  assert (Hsame : ∀ items σ, visit_all c' items σ = visit_all c items σ).
  { induction items as [|[n v] items IH]; intros σ0; [done|].
    cbn [visit_all]. rewrite IH. unfold visit. by rewrite Hcls, Hname. }
  rewrite Hsame. by apply visit_all_perm.
Qed.

End states_more.

(** ** The memory store as a map *)

Section memory_as_map.
Context {handler : Type}.
Implicit Types (w : world handler) (self : HandlerBackend.t) (k : key)
  (m : gmap key (list handler)).

Lemma serve_memory_map rs : ∀ w self m,
  is_store w self → unshared w self →
  (∀ k, pending w self k = m !! k) →
  ∃ w', serve_memory self rs w = (Ok (serve_map m rs), w')
    ∧ is_store w' self ∧ unshared w' self.
Proof.
  induction rs as [|r rs IH]; intros w self m Hs Hun Hm.
  - exists w. by repeat split.
  - destruct (perform_other_key w self r Hs Hun)
      as (w1 & Hrun & Hframe & Hs1 & Hun1).
    destruct r as [k h | k | k]; simpl in Hrun, Hframe.
    + destruct (register_pending w self k h Hs) as (w1' & Hreg & _ & Hp).
      assert (w1' = w1) as -> by congruence.
      destruct (IH w1 self (<[k := (default [] (m !! k) ++ [h])%list]> m)
                  Hs1 Hun1) as (w2 & Hrest & Hs2 & Hun2).
      { intros k2. destruct (decide (k = k2)) as [<-|Hne].
        - by rewrite lookup_insert_eq, Hp, Hm.
        - rewrite lookup_insert_ne by done. rewrite Hframe by done. apply Hm. }
      exists w2. simpl. unfold bind. by rewrite Hrun, Hrest.
    + destruct (memory_clear_pending self w k Hs) as (w1' & Hclear & Hp).
      assert (w1' = w1) as -> by (simpl in Hclear; congruence).
      destruct (IH w1 self (delete k m) Hs1 Hun1) as (w2 & Hrest & Hs2 & Hun2).
      { intros k2. destruct (decide (k = k2)) as [<-|Hne].
        - by rewrite lookup_delete_eq.
        - rewrite lookup_delete_ne by done. rewrite Hframe by done. apply Hm. }
      exists w2. simpl. unfold bind. by rewrite Hrun, Hrest.
    + destruct (memory_get_contents self w k Hs) as (w1' & Hget & Hperf & Hp).
      assert (w1' = w1) as -> by (simpl in Hperf; congruence).
      destruct (IH w1 self (delete k m) Hs1 Hun1) as (w2 & Hrest & Hs2 & Hun2).
      { intros k2. destruct (decide (k = k2)) as [<-|Hne].
        - by rewrite lookup_delete_eq.
        - rewrite lookup_delete_ne by done. rewrite Hframe by done. apply Hm. }
      exists w2. simpl. simpl in Hget. unfold bind in *.
      destruct (MemoryHandlerBackend.get_handlers self k w)
        as [[o|e] w0]; [|done].
      rewrite Hget. unfold ret. by rewrite Hrest, Hm.
Qed.

(** X4.  A well-formed memory store without shared lists is a map from keys
    to lists: when [m] holds what waits under every key, a sequence of
    requests does not raise and its [get_handlers] return what they return
    on [m], where a registration appends to the list of its key and
    [clear_handlers] and [get_handlers] remove the key. *)
Theorem memory_store_is_a_map rs w self m :
  is_store w self →
  unshared w self →
  (∀ k, pending w self k = m !! k) →
  ∃ w', serve_memory self rs w = (Ok (serve_map m rs), w').
Proof.
  intros Hs Hun Hm.
  destruct (serve_memory_map rs w self m Hs Hun Hm) as (w' & Hrun & _).
  by exists w'.
Qed.

(** X17.  A memory store constructed with [handlers=None], in whatever
    world, starts as the empty map: its requests never raise, their
    [get_handlers] return what they return on the empty map, and the store
    stays well formed, with no list bound to two keys. *)
Theorem default_memory_store rs (w0 : world handler) :
  ∃ self w,
    (let* a := MemoryHandlerBackend.__init__ None in
     let* got := serve_memory a rs in
     ret (a, got)) w0 = (Ok (self, serve_map ∅ rs), w)
    ∧ is_store w self ∧ unshared w self.
Proof.
  set (self := HandlerBackend.Build (fresh (dom (dicts w0)))).
  set (w1 := World (<[fresh (dom (dicts w0)) := ∅]> (dicts w0)) (lists w0)
                   (redis_db w0) (redis_log w0)).
  assert (Hd : dicts w1 !! HandlerBackend.handlers self = Some ∅)
    by apply lookup_insert_eq.
  destruct (serve_memory_map rs w1 self ∅) as (w & Hrun & Hs & Hun).
  - exists ∅. split; [done|]. intros k l Hk. by rewrite lookup_empty in Hk.
  - intros d k k' l Hd' Hk. rewrite Hd in Hd'. simplify_eq.
  - intros k. unfold pending. by rewrite Hd.
  - exists self, w. split; [|done].
    unfold bind, MemoryHandlerBackend.__init__, HandlerBackend.__init__,
      new_dict, ret. simpl. change (set_dicts _ w0) with w1. fold self.
    by rewrite Hrun.
Qed.

End memory_as_map.

(** ** The properties above on the concrete stores *)

(** Two more handlers for the key [5] of [example_store]. *)
Lemma memory_register_all_then_get_witness :
  is_store example_world example_store
  ∧ [12; 13] ≠ []
  ∧ ∃ l w',
      (register_all example_store (KInt 5) [12; 13];;
       MemoryHandlerBackend.get_handlers example_store (KInt 5)) example_world
      = (Ok (Some l), w')
      ∧ lists w' !! l = Some [10; 11; 12; 13]
      ∧ pending w' example_store (KInt 5) = None.
Proof.
  assert (Hne : [12; 13] ≠ ([] : list nat)) by discriminate.
  split; [exact example_world_is_store|]. split; [exact Hne|].
  exact (memory_register_all_then_get example_world example_store (KInt 5)
           [12; 13] example_world_is_store Hne).
Defined.

(** Clearing the key [5] of [example_store]. *)
Lemma memory_clear_then_get_witness :
  dicts example_world !! HandlerBackend.handlers example_store
  = Some {[ KInt 5 := 1%positive ]}
  ∧ ∃ w', MemoryHandlerBackend.clear_handlers example_store (KInt 5)
            example_world = (Ok (), w')
      ∧ pending w' example_store (KInt 5) = None
      ∧ MemoryHandlerBackend.get_handlers example_store (KInt 5) w'
        = (Ok None, w')
      ∧ MemoryHandlerBackend.clear_handlers example_store (KInt 5) w'
        = (Ok (), w').
Proof.
  split; [reflexivity|].
  exact (memory_clear_then_get example_world example_store
           {[ KInt 5 := 1%positive ]} (KInt 5) eq_refl).
Defined.

(** The list handed out for the key [5], and a registration and a read of
    that key afterwards. *)
Lemma memory_handed_out_list_is_detached_witness :
  is_store example_world example_store
  ∧ unshared example_world example_store
  ∧ MemoryHandlerBackend.get_handlers example_store (KInt 5) example_world
    = (Ok (Some 1%positive),
       World {[ 1%positive := ∅ ]} {[ 1%positive := [10; 11] ]} ∅ [])
  ∧ ∃ got w2,
      serve_memory example_store [Register (KInt 5) 12; Get (KInt 5)]
        (World {[ 1%positive := ∅ ]} {[ 1%positive := [10; 11] ]} ∅ [])
      = (Ok got, w2)
      ∧ lists w2 !! 1%positive = lists example_world !! 1%positive.
Proof.
  assert (Hget : MemoryHandlerBackend.get_handlers example_store (KInt 5)
                   example_world
                 = (Ok (Some 1%positive),
                    World {[ 1%positive := ∅ ]} {[ 1%positive := [10; 11] ]}
                          ∅ [])) by (vm_compute; reflexivity).
  split; [exact example_world_is_store|].
  split; [exact example_world_unshared|]. split; [exact Hget|].
  exact (memory_handed_out_list_is_detached example_world example_store
           (KInt 5) 1%positive _ [Register (KInt 5) 12; Get (KInt 5)]
           example_world_is_store example_world_unshared Hget).
Defined.

(** [example_store] holds what the map with the one key [5] holds. *)
Lemma example_world_map k :
  pending example_world example_store k
  = ({[ KInt 5 := [10; 11] ]} : gmap key (list nat)) !! k.
Proof.
  unfold pending. simpl. rewrite lookup_singleton_eq. simpl.
  destruct (decide (KInt 5 = k)) as [<-|Hne].
  - by rewrite !lookup_singleton_eq.
  - by rewrite !lookup_singleton_ne.
Qed.

(** Reads and a registration on [example_store]. *)
Lemma memory_store_is_a_map_witness :
  is_store example_world example_store
  ∧ unshared example_world example_store
  ∧ (∀ k, pending example_world example_store k
          = ({[ KInt 5 := [10; 11] ]} : gmap key (list nat)) !! k)
  ∧ ∃ w',
      serve_memory example_store
        [Get (KInt 5); Register (KStr "chat") 12; Get (KStr "chat");
         Get (KStr "chat")] example_world
      = (Ok [Some [10; 11]; Some [12]; None], w').
Proof.
  split; [exact example_world_is_store|].
  split; [exact example_world_unshared|]. split; [exact example_world_map|].
  exact (memory_store_is_a_map
           [Get (KInt 5); Register (KStr "chat") 12; Get (KStr "chat");
            Get (KStr "chat")] example_world example_store
           {[ KInt 5 := [10; 11] ]}
           example_world_is_store example_world_unshared example_world_map).
Defined.

(** Two stores on the mapping of [example_store]. *)
Lemma memory_explicit_mapping_is_shared_witness :
  is_store example_world (HandlerBackend.Build 1)
  ∧ ∃ w',
      (let* a := MemoryHandlerBackend.__init__ (Some 1%positive) in
       let* b := MemoryHandlerBackend.__init__ (Some 1%positive) in
       MemoryHandlerBackend.register_handler a (KInt 5) 12;; ret (a, b))
        example_world
      = (Ok (HandlerBackend.Build 1, HandlerBackend.Build 1), w')
      ∧ pending w' (HandlerBackend.Build 1) (KInt 5) = Some [10; 11; 12].
Proof.
  split; [exact example_world_is_store|].
  exact (memory_explicit_mapping_is_shared example_world 1%positive (KInt 5)
           12 example_world_is_store).
Defined.

(** Two more handlers for the key [5] on [example_server]. *)
Lemma redis_register_all_then_get_witness :
  reads example_server example_redis (KInt 5) [10; 11]
  ∧ [12; 13] ≠ []
  ∧ (∀ n, 0 < n ≤ 2 → faithful ([10; 11] ++ take n [12; 13])%list)
  ∧ ∃ w',
      (redis_register_all example_redis (KInt 5) [12; 13];;
       RedisHandlerBackend.get_handlers example_redis (KInt 5)) example_server
      = (Ok (Some [10; 11; 12; 13]), w')
      ∧ redis_db w' = delete "aminobot:5" (redis_db example_server).
Proof.
  assert (Hread : reads example_server example_redis (KInt 5) [10; 11]).
  { right. exists [Byte.x80; Byte.x0a; Byte.x0b].
    split; [reflexivity|]. split; [discriminate|reflexivity]. }
  assert (Hne : [12; 13] ≠ ([] : list nat)) by discriminate.
  assert (Hf : ∀ n, 0 < n ≤ 2 →
                faithful ([10; 11] ++ take n [12; 13])%list).
  { intros [|[|[|n]]] Hn; try lia.
    - exists [Byte.x80; Byte.x0a; Byte.x0b; Byte.x0c].
      split; [reflexivity|]. split; [discriminate|reflexivity].
    - exists [Byte.x80; Byte.x0a; Byte.x0b; Byte.x0c; Byte.x0d].
      split; [reflexivity|]. split; [discriminate|reflexivity]. }
  split; [exact Hread|]. split; [exact Hne|]. split; [exact Hf|].
  exact (redis_register_all_then_get example_redis (KInt 5) [12; 13]
           example_server [10; 11] Hread Hne Hf).
Defined.

(** A handler that [example_pickle] does not serialize. *)
Lemma redis_register_failure_keeps_payload_witness :
  (∃ old, reads example_server example_redis (KInt 5) old
          ∧ pickle_dumps (old ++ [300])%list = Raise PickleError)
  ∧ RedisHandlerBackend.register_handler example_redis (KInt 5) 300
      example_server
    = (Raise PickleError,
       World {[ 1%positive := ∅ ]} ∅
             {[ "aminobot:5" := [Byte.x80; Byte.x0a; Byte.x0b] ]}
             [GET "aminobot:5"]).
Proof.
  assert (Hfail :
    ∃ old, reads example_server example_redis (KInt 5) old
           ∧ pickle_dumps (old ++ [300])%list = Raise PickleError).
  { exists [10; 11]. split; [|reflexivity].
    right. exists [Byte.x80; Byte.x0a; Byte.x0b].
    split; [reflexivity|]. split; [discriminate|reflexivity]. }
  split; [exact Hfail|].
  exact (redis_register_failure_keeps_payload example_redis (KInt 5) 300
           example_server PickleError (or_intror Hfail)).
Defined.

Lemma aminobot_no_colon : no_colon "aminobot".
Proof.
  unfold no_colon. simpl. intros Hin.
  repeat (apply elem_of_cons in Hin as [Hin|Hin]; [discriminate|]).
  by apply elem_of_nil in Hin.
Qed.

Lemma other_no_colon : no_colon "other".
Proof.
  unfold no_colon. simpl. intros Hin.
  repeat (apply elem_of_cons in Hin as [Hin|Hin]; [discriminate|]).
  by apply elem_of_nil in Hin.
Qed.

(** [example_redis] and a store with the prefix [other] on one server. *)
Lemma redis_names_of_two_stores_witness :
  let other :=
    RedisHandlerBackend.Build 2 "other" (Redis.Build "localhost" 6379 0 None) in
  no_colon (RedisHandlerBackend.prefix example_redis)
  ∧ no_colon (RedisHandlerBackend.prefix other)
  ∧ redis_db (RedisHandlerBackend.get_handlers other (KInt 5)
                example_server).2 !! "aminobot:5"
    = Some [Byte.x80; Byte.x0a; Byte.x0b].
Proof.
  split; [exact aminobot_no_colon|]. split; [exact other_no_colon|].
  destruct (redis_names_of_two_stores (handler := nat)
              (RedisHandlerBackend.Build 2 "other"
                 (Redis.Build "localhost" 6379 0 None))
              example_redis (KInt 5) (KInt 5)
              other_no_colon aminobot_no_colon) as [_ Hframe].
  assert (Hne : "other" ≠ "aminobot") by discriminate.
  destruct (Hframe Hne example_server 0) as (_ & _ & Hget). exact Hget.
Defined.

(** A new memory store and an empty server, with integers as keys. *)
Lemma memory_and_redis_agree_witness :
  (∀ l : list Byte.byte, faithful l)
  ∧ is_store fresh_memory example_store
  ∧ unshared fresh_memory example_store
  ∧ (∀ k, agree fresh_memory example_store fresh_server example_redis k)
  ∧ ∃ got wm' wr',
      serve_memory example_store
        [Register (KInt 1) Byte.x0a; Register (KInt 2) Byte.x0b;
         Register (KInt 1) Byte.x0c; Get (KInt 1); Get (KInt 1)] fresh_memory
      = (Ok got, wm')
      ∧ serve_redis example_redis
          [Register (KInt 1) Byte.x0a; Register (KInt 2) Byte.x0b;
           Register (KInt 1) Byte.x0c; Get (KInt 1); Get (KInt 1)] fresh_server
        = (Ok got, wr').
Proof.
  assert (Hf : ∀ l : list Byte.byte, faithful l).
  { intros l. exists (Byte.x80 :: l). by repeat split. }
  assert (Hs : is_store fresh_memory example_store).
  { exists ∅. split; [apply lookup_singleton_eq|]. intros k l Hk.
    by rewrite lookup_empty in Hk. }
  assert (Hun : unshared fresh_memory example_store).
  { intros d k k' l Hd Hk. simpl in Hd. rewrite lookup_singleton_eq in Hd.
    injection Hd as <-. by rewrite lookup_empty in Hk. }
  assert (Hagree : ∀ k, agree fresh_memory example_store fresh_server
                          example_redis k).
  { intros k. unfold agree, pending. simpl. rewrite lookup_singleton_eq.
    simpl. by rewrite !lookup_empty. }
  split; [exact Hf|]. split; [exact Hs|]. split; [exact Hun|].
  split; [exact Hagree|].
  apply (memory_and_redis_agree example_store example_redis
           (λ k, ∃ z, k = KInt z)); [exact Hf| |repeat constructor; eauto
                                     |exact Hs|exact Hun|auto].
  intros k1 k2 [a ->] [b ->] Heq. f_equal. by apply str_int_inj.
Defined.

(** A second group that binds [my_state] of [example_group] again. *)
Lemma later_group_takes_the_state_witness :
  let borrower := StatesGroup.Class 10 "Borrower" [("borrowed", 1%positive)] in
  StatesGroup.__init_subclass__ example_group example_objects !! 1%positive
  = Some (StateObj false "MyStates:my_state" (Some 9%positive))
  ∧ StatesGroup.__init_subclass__ borrower
      (StatesGroup.__init_subclass__ example_group example_objects)
    !! 1%positive
    = Some (StateObj false "Borrower:borrowed" (Some 10%positive)).
Proof.
  split; [reflexivity|].
  apply (later_group_takes_the_state example_group
           (StatesGroup.Class 10 "Borrower" [("borrowed", 1%positive)])
           example_objects [] "borrowed" 1%positive []);
    try reflexivity.
  intros s' Hin. by apply elem_of_nil in Hin.
Defined.

(** [my_state = State()] in the body of [MyStates], as in the docstring. *)
Lemma str_of_adopted_state_witness :
  let MyStates := StatesGroup.Class 9 "MyStates" [("my_state", 1%positive)] in
  State.__init__ ∅ = (Ok 1%positive, {[ 1%positive := StateObj false EmptyString None ]})
  ∧ (State.__str__ 1%positive
       (StatesGroup.__init_subclass__ MyStates
          {[ 1%positive := StateObj false EmptyString None ]})).1
    = Ok "MyStates:my_state".
Proof.
  assert (Hinit : State.__init__ ∅
                  = (Ok 1%positive,
                     {[ 1%positive := StateObj false EmptyString None ]}))
    by (vm_compute; reflexivity).
  split; [exact Hinit|].
  apply (str_of_adopted_state
           (StatesGroup.Class 9 "MyStates" [("my_state", 1%positive)])
           ∅ 1%positive _ [] "my_state" [] Hinit); try reflexivity.
  intros s' Hin. by apply elem_of_nil in Hin.
Defined.

(** The class body of [example_group] in reverse. *)
Lemma init_subclass_order_witness :
  let reversed :=
    StatesGroup.Class 9 "MyStates"
      (reverse (StatesGroup.__dict__ example_group)) in
  StatesGroup.__dict__ example_group ≡ₚ StatesGroup.__dict__ reversed
  ∧ NoDup (StatesGroup.__dict__ example_group).*2
  ∧ StatesGroup.__init_subclass__ reversed example_objects
    = StatesGroup.__init_subclass__ example_group example_objects.
Proof.
  assert (Hperm : StatesGroup.__dict__ example_group
                  ≡ₚ reverse (StatesGroup.__dict__ example_group)).
  { symmetry. apply reverse_Permutation. }
  assert (Hnodup : NoDup (StatesGroup.__dict__ example_group).*2).
  { apply (bool_decide_unpack _). vm_compute. reflexivity. }
  split; [exact Hperm|]. split; [exact Hnodup|].
  exact (init_subclass_order example_group
           (StatesGroup.Class 9 "MyStates"
              (reverse (StatesGroup.__dict__ example_group)))
           example_objects eq_refl eq_refl Hperm Hnodup).
Defined.
